(** * createFastContext: the keyed store behind [Provider] / [useStore]

    A shallow embedding of [createFastContext.jsx]: the store object held in
    [store.current], the ECMAScript [Set] of subscriber callbacks held in
    [subscribers.current], the three accessors returned by [useStoreData]
    ([get], [set], [subscribe]) and the [useStore] hook.

    Subscriber callbacks are closures supplied by the host runtime; they are
    identified by reference ([CbId]) and their bodies are commands over the
    three accessors, so that a callback may read the store, merge into it
    again, or subscribe and unsubscribe callbacks while a notification pass
    is running. *)

From Stdlib Require Import ZArith String List Lia.
From stdpp Require Import base option list gmap strings.

(** ** Values and store objects *)

(** The field values used by the demo store: strings, numbers, and the
    [undefined] a property read yields for a missing key. *)
Inductive Value : Type :=
| VUndefined
| VNum (n : Z)
| VStr (s : string).

#[global] Instance Value_eq_dec : EqDecision Value.
Proof. solve_decision. Defined.

(** A store object: own enumerable string-keyed properties. *)
Abbreviation StoreState := (gmap string Value).

(** [{ ...a, ...b }]: the properties of [a], then those of [b] on top. *)
Definition spread (a b : StoreState) : StoreState := b ∪ a.

(** [o[key]] for the own keys of [o]: the property value, and [undefined]
    when [o] has no such key. The keys every object inherits from
    [Object.prototype] ([toString], [constructor], ...) are not own keys and
    are left out: the store objects here are read at the field names. *)
Definition prop (o : StoreState) (key : string) : Value :=
  default VUndefined (o !! key).

(** [{ [key]: value }] *)
Definition single (key : string) (value : Value) : StoreState :=
  {[ key := value ]}.

(** ** Callback references and the ECMAScript Set *)

(** A callback is known by its reference identity. *)
Definition CbId : Type := nat.

(** [[SetData]] of an ECMAScript [Set]: entries in insertion order, a deleted
    entry leaving an [empty] slot ([None]) behind so that a running [forEach]
    keeps its index. *)
Module JsSet.

Definition t : Type := list (option CbId).

Definition empty : t := [].

Definition has (value : CbId) (entries : t) : bool :=
  bool_decide (Some value ∈ entries).

(** [Set.prototype.add]: nothing when the value is already an entry,
    otherwise appended as the last entry. *)
Definition add (value : CbId) (entries : t) : t :=
  if has value entries then entries else entries ++ [Some value].

(** [Set.prototype.delete]: the matching entry becomes [empty]; the result
    tells whether there was one. *)
Fixpoint delete (value : CbId) (entries : t) : bool * t :=
  match entries with
  | [] => (false, [])
  | e :: rest =>
      if decide (e = Some value) then (true, None :: rest)
      else let '(found, rest') := delete value rest in (found, e :: rest')
  end.

(** The values currently in the set, in insertion order. *)
Definition values (entries : t) : list CbId := omap id entries.

(** No value is an entry twice. *)
Definition wf (entries : t) : Prop := NoDup (values entries).

End JsSet.

(** ** The store of one Provider *)

(** The two refs of [useStoreData]. *)
Record Store : Type := mkStore {
  store_current : StoreState;          (* store.current *)
  subscribers_current : JsSet.t        (* subscribers.current *)
}.

(** [useRef(initialState)] and [useRef(new Set())]. *)
Definition initStore (initialState : StoreState) : Store :=
  mkStore initialState JsSet.empty.

(** * Commands: what the host and the callbacks do with the accessors *)

Inductive Cmd : Type :=
| Done                                              (* return *)
| Get (k : StoreState -> Cmd)                       (* const s = get(); k(s) *)
| SetC (value : StoreState) (k : Cmd)               (* set(value); k *)
| Subscribe (callback : CbId) (k : Cmd)             (* subscribe(callback); k *)
| Unsubscribe (callback : CbId) (k : Cmd).          (* the function returned by
                                                       subscribe(callback), called; k *)

(** What an execution leaves behind for an observer. [d] is the nesting
    depth: the host runs at depth 0, the callbacks invoked by a [set] of
    depth [d] run at depth [S d]. *)
Inductive Event : Type :=
| EvSet (d : nat) (value : StoreState)      (* a set(value) at depth d replaced store.current *)
| EvCall (d : nat) (callback : CbId)        (* the forEach of a set at depth d called callback *)
| EvRead (d : nat) (s : StoreState).        (* code at depth d obtained s from get() *)

#[global] Instance Event_eq_dec : EqDecision Event.
Proof. solve_decision. Defined.

Inductive Status : Type := Returned | OutOfFuel.

Record Run : Type := mkRun {
  status : Status;
  final : Store;
  events : list Event
}.

Definition ret (σ : Store) : Run := mkRun Returned σ [].
Definition out_of_fuel (σ : Store) : Run := mkRun OutOfFuel σ [].
Definition emit (e : Event) (r : Run) : Run :=
  mkRun (status r) (final r) (e :: events r).

(** Sequencing: the second part runs only when the first returned. *)
Definition and_then (r : Run) (k : Store -> Run) : Run :=
  match status r with
  | Returned =>
      let r' := k (final r) in
      mkRun (status r') (final r') (events r ++ events r')
  | OutOfFuel => r
  end.

(** ** The accessors of [useStoreData] *)

(** [const get = () => store.current] *)
Definition get (σ : Store) : StoreState := store_current σ.

(** The first statement of [set]:
    [store.current = { ...store.current, ...value }]. *)
Definition assign (value : StoreState) (σ : Store) : Store :=
  mkStore (spread (store_current σ) value) (subscribers_current σ).

(** The function [subscribe] returns:
    [() => subscribers.current.delete(callback)]. *)
Definition unsubscribe (callback : CbId) (σ : Store) : bool * Store :=
  let '(found, entries) := JsSet.delete callback (subscribers_current σ) in
  (found, mkStore (store_current σ) entries).

(** [subscribe]: [subscribers.current.add(callback)], and the function
    above is returned. *)
Definition subscribe (callback : CbId) (σ : Store)
  : Store * (Store -> bool * Store) :=
  (mkStore (store_current σ) (JsSet.add callback (subscribers_current σ)),
   unsubscribe callback).

Section Execution.

(** The body of each callback the host runtime created. *)
Variable env : CbId -> Cmd.

(** [set] merges and then runs [subscribers.current.forEach]; [forEach]
    walks [[SetData]] by index, re-reading its length after every call
    and skipping [empty] slots; [call] runs a command at depth [d]. The
    fuel bounds the number of steps: a callback that merges again
    re-enters [set], and nothing in the code bounds that nesting. *)
Fixpoint set (fuel : nat) (d : nat) (value : StoreState) (σ : Store)
  {struct fuel} : Run :=
  match fuel with
  | O => out_of_fuel σ
  | S fuel' =>
      emit (EvSet d value) (forEach fuel' d 0 (assign value σ))
  end
with forEach (fuel : nat) (d : nat) (index : nat) (σ : Store)
  {struct fuel} : Run :=
  match fuel with
  | O => out_of_fuel σ
  | S fuel' =>
      match subscribers_current σ !! index with
      | None => ret σ
      | Some None => forEach fuel' d (S index) σ
      | Some (Some callback) =>
          emit (EvCall d callback)
            (and_then (call fuel' (S d) (env callback) σ)
                      (forEach fuel' d (S index)))
      end
  end
with call (fuel : nat) (d : nat) (c : Cmd) (σ : Store)
  {struct fuel} : Run :=
  match fuel with
  | O => out_of_fuel σ
  | S fuel' =>
      match c with
      | Done => ret σ
      | Get k => emit (EvRead d (get σ)) (call fuel' d (k (get σ)) σ)
      | SetC value k => and_then (set fuel' d value σ) (call fuel' d k)
      | Subscribe callback k =>
          call fuel' d k (fst (subscribe callback σ))
      | Unsubscribe callback k =>
          call fuel' d k (snd (unsubscribe callback σ))
      end
  end.

End Execution.

Arguments set env fuel d value σ : simpl nomatch.
Arguments forEach env fuel d index σ : simpl nomatch.
Arguments call env fuel d c σ : simpl nomatch.

(** ** The context and the [useStore] hook *)

(** The object [useStoreData] returns: the three accessors, closed over the
    refs of the Provider that created them. *)
Record StoreHandle : Type := mkHandle {
  h_get : Store -> StoreState;
  h_set : StoreState -> Cmd -> Cmd;
  h_subscribe : CbId -> Cmd -> Cmd
}.

Definition useStoreData : StoreHandle := mkHandle get SetC Subscribe.

(** [createContext(null)]: what [useContext(StoreContext)] yields outside a
    Provider is [null], inside one the Provider's handle. *)
Definition StoreContext_default : option StoreHandle := None.
Definition Provider_value : option StoreHandle := Some useStoreData.

(** [throw new Error(message)] *)
Inductive Thrown : Type := Error (message : string).

(** [() => store.get()[key]], the snapshot function handed to
    [useSyncExternalStore]. *)
Definition getSnapshot (store : StoreHandle) (key : string) (σ : Store) : Value :=
  prop (h_get store σ) key.

(** [() => initialState[key]] *)
Definition getServerSnapshot (initialState : StoreState) (key : string) : Value :=
  prop initialState key.

(** The setter [useStore] returns: [(value) => { store.set({ [key]: value }) }]. *)
Definition setter (store : StoreHandle) (key : string) (value : Value) : Cmd :=
  h_set store (single key value) Done.

(** [useStore(key)], rendered with the context value [ctx] while the store
    is [σ]: throws when there is no store, otherwise the pair
    [[state, set]]. *)
Definition useStore (ctx : option StoreHandle) (key : string) (σ : Store)
  : Thrown + (Value * (Value -> Cmd)) :=
  match ctx with
  | None => inl (Error "Store not found")
  | Some store => inr (getSnapshot store key σ, setter store key)
  end.

(** * Reading a trace *)

(** The store object after the merges a trace records, from [s]. *)
Fixpoint replay (evs : list Event) (s : StoreState) : StoreState :=
  match evs with
  | [] => s
  | EvSet _ value :: rest => replay rest (spread s value)
  | _ :: rest => replay rest s
  end.

(** Every read in the trace obtained the object current at that moment. *)
Fixpoint reads_current (s : StoreState) (evs : list Event) : Prop :=
  match evs with
  | [] => True
  | EvSet _ value :: rest => reads_current (spread s value) rest
  | EvRead _ s' :: rest => s' = s /\ reads_current s rest
  | EvCall _ _ :: rest => reads_current s rest
  end.

(** The callbacks called by the [forEach] of depth [d], in order. *)
Fixpoint calls_at (d : nat) (evs : list Event) : list CbId :=
  match evs with
  | [] => []
  | EvCall d' callback :: rest =>
      if decide (d' = d) then callback :: calls_at d rest else calls_at d rest
  | _ :: rest => calls_at d rest
  end.

(** The callbacks called at any depth, in order. *)
Fixpoint calls (evs : list Event) : list CbId :=
  match evs with
  | [] => []
  | EvCall _ callback :: rest => callback :: calls rest
  | _ :: rest => calls rest
  end.

(** The objects merged by the [set] calls of the trace, in order. *)
Fixpoint merged (evs : list Event) : list StoreState :=
  match evs with
  | [] => []
  | EvSet _ value :: rest => value :: merged rest
  | _ :: rest => merged rest
  end.

(** The objects read at any depth, in order. *)
Fixpoint reads (evs : list Event) : list StoreState :=
  match evs with
  | [] => []
  | EvRead _ s :: rest => s :: reads rest
  | _ :: rest => reads rest
  end.

(** ** Shapes of callback bodies *)

(** The command never touches the subscriber set. *)
Fixpoint keeps_subscribers (c : Cmd) : Prop :=
  match c with
  | Done => True
  | Get k => forall s, keeps_subscribers (k s)
  | SetC _ k => keeps_subscribers k
  | Subscribe _ _ => False
  | Unsubscribe _ _ => False
  end.

(** The command never subscribes [callback]. *)
Fixpoint never_subscribes (callback : CbId) (c : Cmd) : Prop :=
  match c with
  | Done => True
  | Get k => forall s, never_subscribes callback (k s)
  | SetC _ k => never_subscribes callback k
  | Subscribe callback' k => callback' <> callback /\ never_subscribes callback k
  | Unsubscribe _ k => never_subscribes callback k
  end.

(** The command never merges. *)
Fixpoint never_sets (c : Cmd) : Prop :=
  match c with
  | Done => True
  | Get k => forall s, never_sets (k s)
  | SetC _ _ => False
  | Subscribe _ k => never_sets k
  | Unsubscribe _ k => never_sets k
  end.

(** * Scenarios *)

Module Demo.

(** The demo's [createFastContext({ first: "", last: "", count: 0 })]. *)
Definition initialState : StoreState :=
  {[ "first"%string := VStr ""%string; "last"%string := VStr ""%string;
     "count"%string := VNum 0 ]}.

(** A callback in the manner of the host's store-change handler: it takes
    a snapshot and returns. *)
Definition reader : Cmd := Get (fun _ => Done).

(** A callback that puts [count] back to 0 whenever it finds it at 1. *)
Definition resetter : Cmd :=
  Get (fun s =>
    if decide (prop s "count"%string = VNum 1)
    then SetC (single "count"%string (VNum 0)) Done
    else Done).

(** Callback 0 only reads, callback 1 resets [count], callback 2
    unsubscribes callback 0, every other callback only reads. *)
Definition env (callback : CbId) : Cmd :=
  match callback with
  | 1 => resetter
  | 2 => Unsubscribe 0 Done
  | _ => reader
  end.

(** Every callback only reads. *)
Definition readers (callback : CbId) : Cmd := reader.

End Demo.

(** * Properties of runs *)

Definition ev_depth (e : Event) : nat :=
  match e with EvSet d _ | EvCall d _ | EvRead d _ => d end.

(** The final store object is the initial one with the merges of the
    trace applied in order, and each read saw the object of its moment. *)
Definition replays (d : nat) (σ : Store) (r : Run) : Prop :=
  store_current (final r) = replay (events r) (store_current σ)
  /\ reads_current (store_current σ) (events r).

(** Everything a run at depth [d] records is at depth [d] or deeper. *)
Definition deeper (d : nat) (σ : Store) (r : Run) : Prop :=
  Forall (fun e => d <= ev_depth e) (events r).

(** A slot of [[SetData]] keeps its entry or becomes empty. *)
Definition slots_kept (d : nat) (σ : Store) (r : Run) : Prop :=
  forall j e, subscribers_current σ !! j = Some e ->
    subscribers_current (final r) !! j = Some e
    \/ subscribers_current (final r) !! j = Some None.

(** The set never holds a value twice. *)
Definition keeps_wf (d : nat) (σ : Store) (r : Run) : Prop :=
  JsSet.wf (subscribers_current σ) ->
  JsSet.wf (subscribers_current (final r)).

(** A callback that is not in the set, and that nothing subscribes, is
    neither called nor in the set afterwards. *)
Definition stays_out (callback : CbId) (d : nat) (σ : Store) (r : Run) : Prop :=
  Some callback ∉ subscribers_current σ ->
  (Some callback ∉ subscribers_current (final r)) /\ (callback ∉ calls (events r)).

(** The merges a [set] call records after its own: those of the callbacks
    it notified. *)
Definition nested_merges (evs : list Event) : list StoreState := tail (merged evs).

(** How often the [forEach] of depth [d] called [callback]. *)
Definition times_called (d : nat) (callback : CbId) (evs : list Event) : nat :=
  length (filter (fun callback' => callback' = callback) (calls_at d evs)).

(** * Further vocabulary *)

(** The keys the merges of a trace mention. *)
Fixpoint merged_keys (evs : list Event) : gset string :=
  match evs with
  | [] => ∅
  | EvSet _ value :: rest => dom value ∪ merged_keys rest
  | _ :: rest => merged_keys rest
  end.

(** [subscribe] called for each callback of [cs] in turn. *)
Definition subscribe_all (cs : list CbId) (σ : Store) : Store :=
  foldl (fun σ' callback => fst (subscribe callback σ')) σ cs.


Module Scenarios.

(** Callback 0 subscribes callback 7 when it is notified; every other
    callback takes a snapshot and returns. *)
Definition late (callback : CbId) : Cmd :=
  match callback with
  | 0 => Subscribe 7 Done
  | _ => Get (fun _ => Done)
  end.

(** Callback 0 merges on every notification; the others read. *)
Definition echo (callback : CbId) : Cmd :=
  match callback with
  | 0 => SetC (single "count"%string (VNum 0)) Done
  | _ => Get (fun _ => Done)
  end.

End Scenarios.

(** * The demo application *)

Module App.

(** [AppContext.tsx]: [createFastContext({ first: "", last: "", count: 0 })],
    exported as [AppProvider] and [useAppStore]. *)
Definition initialState : StoreState := Demo.initialState.
Definition AppProvider : option StoreHandle := Provider_value.
Definition useAppStore (ctx : option StoreHandle) (key : string) (σ : Store)
  : Thrown + (Value * (Value -> Cmd)) :=
  useStore ctx key σ.

(** What a render of [TextInput] puts on the [input]: its [value] and its
    [onChange], which passes [e.target.value], a string, to the setter. *)
Record TextInputView : Type := mkTextInputView {
  input_value : Value;
  onChange : string -> Cmd
}.

Definition TextInput (ctx : option StoreHandle) (value : string) (σ : Store)
  : Thrown + TextInputView :=
  match useAppStore ctx value σ with
  | inl e => inl e
  | inr (fieldValue, setFieldValue) =>
      inr (mkTextInputView fieldValue (fun text => setFieldValue (VStr text)))
  end.

(** [Display] shows the field value. *)
Definition Display (ctx : option StoreHandle) (value : string) (σ : Store)
  : Thrown + Value :=
  match useAppStore ctx value σ with
  | inl e => inl e
  | inr (fieldValue, _) => inr fieldValue
  end.

(** [count + 1]: number addition on a number, exact as long as the sum is
    an integer a double holds exactly; on a string, the string followed by
    ["1"]. [None] where [Value] does not give the result: [NaN] for
    [undefined], a rounded double beyond 2^53. *)
Definition plus_one (count : Value) : option Value :=
  match count with
  | VNum n =>
      if decide (- 2 ^ 53 <= n < 2 ^ 53)%Z then Some (VNum (n + 1)) else None
  | VStr s => Some (VStr (s ++ "1"))
  | VUndefined => None
  end.

(** What a render of [FormContainer] puts on its button: the count shown
    and [onClick], [() => setCount(count + 1)] with the [count] of this
    render. *)
Record FormContainerView : Type := mkFormContainerView {
  button_count : Value;
  onClick : option Cmd
}.

Definition FormContainer (ctx : option StoreHandle) (σ : Store)
  : Thrown + FormContainerView :=
  match useAppStore ctx "count" σ with
  | inl e => inl e
  | inr (count, setCount) =>
      inr (mkFormContainerView count (option_map setCount (plus_one count)))
  end.

(** [DisplayContainer] shows the count. *)
Definition DisplayContainer (ctx : option StoreHandle) (σ : Store)
  : Thrown + Value :=
  match useAppStore ctx "count" σ with
  | inl e => inl e
  | inr (count, _) => inr count
  end.

End App.

(** * The pass, described *)

(** What a pass over the callbacks of a list does, in the list's order:
    it calls each one, the body of the callback runs to its return from
    the store the previous one left, and the next one starts from the store
    this one leaves. The events are those of the calls and of the bodies,
    in order. *)
Inductive notifies (env : CbId -> Cmd) (d : nat)
  : list CbId -> Store -> list Event -> Store -> Prop :=
| notifies_nil σ : notifies env d [] σ [] σ
| notifies_cons callback rest σ fuel evs σ' :
    status (call env fuel (S d) (env callback) σ) = Returned ->
    notifies env d rest (final (call env fuel (S d) (env callback) σ)) evs σ' ->
    notifies env d (callback :: rest) σ
      (EvCall d callback :: events (call env fuel (S d) (env callback) σ) ++ evs)
      σ'.


(** On every path through the command, the unsubscribe function of
    [callback] is called. *)
Fixpoint always_unsubscribes (callback : CbId) (c : Cmd) : Prop :=
  match c with
  | Done => False
  | Get k => forall s, always_unsubscribes callback (k s)
  | SetC _ k => always_unsubscribes callback k
  | Subscribe _ k => always_unsubscribes callback k
  | Unsubscribe callback' k =>
      callback' = callback \/ always_unsubscribes callback k
  end.

Module Cascades.

(** Callback 1 puts [count] back to 0 whenever it finds it at 1; every
    other callback takes a snapshot and returns. No callback touches the
    subscriber set. *)
Definition resetting (callback : CbId) : Cmd :=
  match callback with
  | 1 => Demo.resetter
  | _ => Demo.reader
  end.

(** Callback 2 takes a snapshot and then unsubscribes callback 0; every
    other callback takes a snapshot and returns. *)
Definition leaving (callback : CbId) : Cmd :=
  match callback with
  | 2 => Get (fun _ => Unsubscribe 0 Done)
  | _ => Demo.reader
  end.

End Cascades.

(** * Unfolding equations *)

Lemma set_S env fuel d value σ :
  set env (S fuel) d value σ
  = emit (EvSet d value) (forEach env fuel d 0 (assign value σ)).
Proof. reflexivity. Qed.

Lemma forEach_S env fuel d index σ :
  forEach env (S fuel) d index σ
  = match subscribers_current σ !! index with
    | None => ret σ
    | Some None => forEach env fuel d (S index) σ
    | Some (Some callback) =>
        emit (EvCall d callback)
          (and_then (call env fuel (S d) (env callback) σ)
                    (forEach env fuel d (S index)))
    end.
Proof. reflexivity. Qed.

Lemma call_S env fuel d c σ :
  call env (S fuel) d c σ
  = match c with
    | Done => ret σ
    | Get k => emit (EvRead d (get σ)) (call env fuel d (k (get σ)) σ)
    | SetC value k => and_then (set env fuel d value σ) (call env fuel d k)
    | Subscribe callback k => call env fuel d k (fst (subscribe callback σ))
    | Unsubscribe callback k => call env fuel d k (snd (unsubscribe callback σ))
    end.
Proof. reflexivity. Qed.

(** * Reasoning principle for executions *)

(** A property [R d σ r] of the runs started at depth [d] from store [σ]
    holds of every run of [set], [forEach] and [call] as soon as it is kept
    by each construct of the three functions. [P] restricts the commands
    considered. *)
Section RunInduction.

Variable env : CbId -> Cmd.
Variable P : Cmd -> Prop.
Variable R : nat -> Store -> Run -> Prop.

Hypothesis P_env : forall callback, P (env callback).
Hypothesis P_get : forall k s, P (Get k) -> P (k s).
Hypothesis P_set : forall value k, P (SetC value k) -> P k.
Hypothesis P_sub : forall callback k, P (Subscribe callback k) -> P k.
Hypothesis P_unsub : forall callback k, P (Unsubscribe callback k) -> P k.

Hypothesis R_stop : forall d σ, R d σ (out_of_fuel σ).
Hypothesis R_ret : forall d σ, R d σ (ret σ).
Hypothesis R_set : forall d value σ r,
  R d (assign value σ) r -> R d σ (emit (EvSet d value) r).
Hypothesis R_call : forall d callback σ r k,
  Some callback ∈ subscribers_current σ ->
  R (S d) σ r -> R d (final r) (k (final r)) ->
  R d σ (emit (EvCall d callback) (and_then r k)).
Hypothesis R_read : forall d σ r,
  R d σ r -> R d σ (emit (EvRead d (get σ)) r).
Hypothesis R_seq : forall d σ r k,
  R d σ r -> R d (final r) (k (final r)) -> R d σ (and_then r k).
Hypothesis R_sub : forall d callback k σ r,
  P (Subscribe callback k) ->
  R d (fst (subscribe callback σ)) r -> R d σ r.
Hypothesis R_unsub : forall d callback k σ r,
  P (Unsubscribe callback k) ->
  R d (snd (unsubscribe callback σ)) r -> R d σ r.

Lemma run_ind (fuel : nat) :
  (forall d value σ, R d σ (set env fuel d value σ)) /\
  (forall d index σ, R d σ (forEach env fuel d index σ)) /\
  (forall d c σ, P c -> R d σ (call env fuel d c σ)).
Proof.
  induction fuel as [|fuel (IHset & IHeach & IHcall)].
  - repeat split; intros; apply R_stop.
  - repeat split.
    + intros d value σ. rewrite set_S. apply R_set, IHeach.
    + intros d index σ. rewrite forEach_S.
      destruct (subscribers_current σ !! index) as [[callback|]|] eqn:Hentry.
      * apply R_call; [|apply IHcall, P_env | apply IHeach].
        eapply list_elem_of_lookup_2, Hentry.
      * apply IHeach.
      * apply R_ret.
    + intros d c σ Hc. rewrite call_S.
      destruct c as [|k|value k|callback k|callback k].
      * apply R_ret.
      * apply R_read, IHcall, P_get, Hc.
      * apply R_seq; [apply IHset | apply IHcall; eapply P_set, Hc].
      * eapply R_sub; [exact Hc | apply IHcall; eapply P_sub, Hc].
      * eapply R_unsub; [exact Hc | apply IHcall; eapply P_unsub, Hc].
Qed.

End RunInduction.

(** * Facts about store objects *)

Lemma spread_lookup (a b : StoreState) (key : string) :
  spread a b !! key = match b !! key with Some v => Some v | None => a !! key end.
Proof.
  unfold spread. destruct (b !! key) as [v|] eqn:Hb.
  - apply lookup_union_Some_l, Hb.
  - rewrite lookup_union_r; done.
Qed.

Lemma spread_single_eq (a : StoreState) (key : string) (value : Value) :
  spread a (single key value) !! key = Some value.
Proof. rewrite spread_lookup. unfold single. by rewrite lookup_singleton_eq. Qed.

Lemma spread_single_ne (a : StoreState) (key key' : string) (value : Value) :
  key <> key' -> spread a (single key value) !! key' = a !! key'.
Proof.
  intros Hne. rewrite spread_lookup. unfold single.
  by rewrite lookup_singleton_ne.
Qed.



Lemma replay_app (evs1 evs2 : list Event) (s : StoreState) :
  replay (evs1 ++ evs2) s = replay evs2 (replay evs1 s).
Proof.
  revert s. induction evs1 as [|[d v|d c|d s'] evs1 IH]; intros s; simpl; auto.
Qed.

Lemma reads_current_app (evs1 evs2 : list Event) (s : StoreState) :
  reads_current s (evs1 ++ evs2)
  <-> reads_current s evs1 /\ reads_current (replay evs1 s) evs2.
Proof.
  revert s. induction evs1 as [|[d v|d c|d s'] evs1 IH]; intros s; simpl.
  - tauto.
  - apply IH.
  - apply IH.
  - rewrite IH. tauto.
Qed.

Lemma replay_keeps_keys (evs : list Event) (s : StoreState) (key : string) :
  is_Some (s !! key) -> is_Some (replay evs s !! key).
Proof.
  revert s. induction evs as [|[d v|d c|d s'] evs IH]; intros s Hs; simpl; auto.
  apply IH. rewrite spread_lookup. destruct (v !! key); eauto.
Qed.

Lemma replay_untouched (evs : list Event) (s : StoreState) (key : string) :
  Forall (fun value : StoreState => value !! key = None) (merged evs) ->
  replay evs s !! key = s !! key.
Proof.
  revert s. induction evs as [|[d v|d c|d s'] evs IH]; intros s Hm; simpl in *; auto.
  inversion Hm as [|? ? Hv Hrest]; subst.
  rewrite IH by exact Hrest. rewrite spread_lookup. by rewrite Hv.
Qed.

Lemma reads_current_no_merge (evs : list Event) (s : StoreState) :
  reads_current s evs -> merged evs = [] -> Forall (fun s' => s' = s) (reads evs).
Proof.
  induction evs as [|[d v|d c|d s'] evs IH]; simpl; intros Hr Hm.
  - constructor.
  - discriminate.
  - auto.
  - destruct Hr as [-> Hr]. constructor; auto.
Qed.

Lemma calls_at_app (d : nat) (evs1 evs2 : list Event) :
  calls_at d (evs1 ++ evs2) = calls_at d evs1 ++ calls_at d evs2.
Proof.
  induction evs1 as [|[d' v|d' c|d' s'] evs1 IH]; simpl; auto.
  destruct (decide (d' = d)); simpl; congruence.
Qed.

Lemma calls_app (evs1 evs2 : list Event) :
  calls (evs1 ++ evs2) = calls evs1 ++ calls evs2.
Proof.
  induction evs1 as [|[d' v|d' c|d' s'] evs1 IH]; simpl; congruence.
Qed.

Lemma merged_app (evs1 evs2 : list Event) :
  merged (evs1 ++ evs2) = merged evs1 ++ merged evs2.
Proof.
  induction evs1 as [|[d' v|d' c|d' s'] evs1 IH]; simpl; congruence.
Qed.

(** * Facts about the ECMAScript Set *)

Module JsSetFacts.
Import JsSet.

Lemma wf_empty : wf empty.
Proof. constructor. Qed.

Lemma elem_of_values (value : CbId) (entries : t) :
  value ∈ values entries <-> Some value ∈ entries.
Proof.
  unfold values. rewrite list_elem_of_omap. split.
  - intros ([x|] & Hin & Hx); simpl in Hx; [|discriminate].
    by inversion Hx; subst.
  - intros Hin. exists (Some value). by split.
Qed.

Lemma has_spec (value : CbId) (entries : t) :
  has value entries = true <-> Some value ∈ entries.
Proof. unfold has. by rewrite bool_decide_eq_true. Qed.

Lemma values_app (l1 l2 : t) : values (l1 ++ l2) = values l1 ++ values l2.
Proof. unfold values. apply omap_app. Qed.

Lemma add_present (value : CbId) (entries : t) :
  Some value ∈ entries -> add value entries = entries.
Proof. intros Hin. unfold add. apply has_spec in Hin. by rewrite Hin. Qed.

Lemma add_absent (value : CbId) (entries : t) :
  Some value ∉ entries -> add value entries = entries ++ [Some value].
Proof.
  intros Hin. unfold add. destruct (has value entries) eqn:Hh; [|done].
  apply has_spec in Hh. contradiction.
Qed.

Lemma elem_of_add (value value' : CbId) (entries : t) :
  Some value' ∈ add value entries <-> value' = value \/ Some value' ∈ entries.
Proof.
  destruct (decide (Some value ∈ entries)) as [Hin|Hin].
  - rewrite add_present by done. split; [auto|]. intros [->|]; done.
  - rewrite add_absent by done. rewrite elem_of_app, list_elem_of_singleton.
    split; [intros [?|[= ->]]; auto | intros [->|?]; auto].
Qed.

Lemma add_idem (value : CbId) (entries : t) :
  add value (add value entries) = add value entries.
Proof. apply add_present, elem_of_add. by left. Qed.

Lemma wf_add (value : CbId) (entries : t) : wf entries -> wf (add value entries).
Proof.
  intros Hwf. destruct (decide (Some value ∈ entries)) as [Hin|Hin].
  - by rewrite add_present.
  - rewrite add_absent by done. unfold wf. rewrite values_app. simpl.
    apply NoDup_app. split; [exact Hwf|]. split; [|apply NoDup_singleton].
    intros x Hx Hx'. apply list_elem_of_singleton in Hx'. subst x.
    by apply elem_of_values in Hx.
Qed.

Lemma add_lookup_keeps (value : CbId) (entries : t) (j : nat) (e : option CbId) :
  entries !! j = Some e -> add value entries !! j = Some e.
Proof.
  intros Hj. unfold add. destruct (has value entries); [done|].
  by apply lookup_app_l_Some.
Qed.

Lemma delete_absent (value : CbId) (entries : t) :
  Some value ∉ entries -> delete value entries = (false, entries).
Proof.
  induction entries as [|e rest IH]; intros Hin; simpl; [done|].
  apply not_elem_of_cons in Hin as [Hne Hin].
  destruct (decide (e = Some value)) as [->|_]; [done|].
  by rewrite IH.
Qed.

Lemma delete_lookup (value : CbId) (entries : t) (j : nat) (e : option CbId) :
  entries !! j = Some e ->
  snd (delete value entries) !! j = Some e
  \/ snd (delete value entries) !! j = Some None.
Proof.
  revert j. induction entries as [|e0 rest IH]; intros j Hj; simpl; [done|].
  destruct (decide (e0 = Some value)) as [->|Hne]; simpl.
  - destruct j as [|j]; simpl in *; auto.
  - destruct (delete value rest) as [found rest'] eqn:Hd; simpl in *.
    destruct j as [|j]; simpl in *; auto.
Qed.

Lemma elem_of_delete (value value' : CbId) (entries : t) :
  Some value' ∈ snd (delete value entries) -> Some value' ∈ entries.
Proof.
  induction entries as [|e rest IH]; simpl; [done|].
  destruct (decide (e = Some value)) as [->|Hne]; simpl.
  - rewrite !elem_of_cons. intros [?|?]; [done|auto].
  - destruct (delete value rest) as [found rest'] eqn:Hd; simpl in *.
    rewrite !elem_of_cons. intros [?|?]; auto.
Qed.

Lemma elem_of_delete_ne (value value' : CbId) (entries : t) :
  value' <> value ->
  Some value' ∈ entries -> Some value' ∈ snd (delete value entries).
Proof.
  intros Hne. induction entries as [|e rest IH]; simpl; [done|].
  destruct (decide (e = Some value)) as [->|Hne']; simpl.
  - rewrite !elem_of_cons. intros [[= ?]|?]; [done|auto].
  - destruct (delete value rest) as [found rest'] eqn:Hd; simpl in *.
    rewrite !elem_of_cons. intros [?|?]; auto.
Qed.

Lemma filter_all (P : CbId -> Prop) `{!forall x, Decision (P x)} (l : list CbId) :
  (forall x, x ∈ l -> P x) -> filter P l = l.
Proof.
  induction l as [|x l IH]; intros Hall; [done|].
  rewrite filter_cons_True by (apply Hall; left).
  f_equal. apply IH. intros y Hy. apply Hall. by right.
Qed.

Lemma values_delete (value : CbId) (entries : t) :
  wf entries ->
  values (snd (delete value entries))
  = filter (fun value' => value' <> value) (values entries).
Proof.
  unfold wf. induction entries as [|e rest IH]; intros Hwf; simpl; [done|].
  destruct (decide (e = Some value)) as [->|Hne]; simpl.
  - simpl in Hwf. apply NoDup_cons in Hwf as [Hnin Hwf].
    rewrite filter_cons_False by (intros H; by apply H).
    symmetry. apply filter_all. intros x Hx ->. done.
  - destruct (delete value rest) as [found rest'] eqn:Hd; simpl in *.
    destruct e as [c|]; simpl in *.
    + apply NoDup_cons in Hwf as [_ Hwf].
      rewrite filter_cons_True by congruence. by rewrite IH.
    + by apply IH.
Qed.

Lemma not_elem_of_delete (value : CbId) (entries : t) :
  wf entries -> Some value ∉ snd (delete value entries).
Proof.
  intros Hwf Hin. apply elem_of_values in Hin.
  rewrite values_delete in Hin by done.
  apply list_elem_of_filter in Hin as [Hne _]. by apply Hne.
Qed.

Lemma wf_delete (value : CbId) (entries : t) :
  wf entries -> wf (snd (delete value entries)).
Proof.
  intros Hwf. unfold wf. rewrite values_delete by done.
  by apply NoDup_filter.
Qed.

End JsSetFacts.

(** * Facts about executions *)

Lemma and_then_returned (r : Run) (k : Store -> Run) :
  status r = Returned ->
  and_then r k
  = mkRun (status (k (final r))) (final (k (final r)))
          (events r ++ events (k (final r))).
Proof. intros Hr. unfold and_then. by rewrite Hr. Qed.

Lemma and_then_out_of_fuel (r : Run) (k : Store -> Run) :
  status r = OutOfFuel -> and_then r k = r.
Proof. intros Hr. unfold and_then. by rewrite Hr. Qed.

Ltac and_then_cases r k :=
  let Hs := fresh "Hstatus" in
  destruct (status r) eqn:Hs;
  [ rewrite (and_then_returned r k Hs) | rewrite (and_then_out_of_fuel r k Hs) ];
  cbn [status final events emit].

Lemma unsubscribe_current (callback : CbId) (σ : Store) :
  store_current (snd (unsubscribe callback σ)) = store_current σ.
Proof.
  unfold unsubscribe. by destruct (JsSet.delete callback (subscribers_current σ)).
Qed.

Lemma unsubscribe_subscribers (callback : CbId) (σ : Store) :
  subscribers_current (snd (unsubscribe callback σ))
  = snd (JsSet.delete callback (subscribers_current σ)).
Proof.
  unfold unsubscribe. by destruct (JsSet.delete callback (subscribers_current σ)).
Qed.

Lemma calls_at_deeper (d : nat) (evs : list Event) :
  Forall (fun e => S d <= ev_depth e) evs -> calls_at d evs = [].
Proof.
  induction 1 as [|[d' v|d' c|d' s'] evs Hd _ IH]; simpl in *; auto.
  destruct (decide (d' = d)); [lia|done].
Qed.

Section RunFacts.

Variable env : CbId -> Cmd.

Lemma replays_seq d σ r k :
  replays d σ r -> replays d (final r) (k (final r)) -> replays d σ (and_then r k).
Proof.
  unfold replays. intros [Hf Hr] [Hf' Hr']. and_then_cases r k; [|by split].
  split.
  - by rewrite replay_app, <- Hf.
  - apply reads_current_app. split; [done|]. by rewrite <- Hf.
Qed.

Lemma run_replays (fuel : nat) :
  (forall d value σ, replays d σ (set env fuel d value σ)) /\
  (forall d index σ, replays d σ (forEach env fuel d index σ)) /\
  (forall d c σ, True -> replays d σ (call env fuel d c σ)).
Proof.
  apply run_ind; try (intros; exact I).
  - by split.
  - by split.
  - intros d value σ r [Hf Hr]. by split.
  - intros d callback σ r k _ H1 H2.
    pose proof (replays_seq (S d) σ r k H1 H2) as [Hf Hr]. by split.
  - intros d σ r [Hf Hr]. by split.
  - apply replays_seq.
  - intros d callback k σ r _ [Hf Hr]. by split.
  - intros d callback k σ r _ [Hf Hr].
    rewrite unsubscribe_current in Hf, Hr. by split.
Qed.

Lemma deeper_seq d σ σ' r k :
  deeper d σ r -> deeper d σ' (k (final r)) -> deeper d σ (and_then r k).
Proof.
  unfold deeper. intros H1 H2. and_then_cases r k; [|done].
  by apply Forall_app.
Qed.

Lemma run_deeper (fuel : nat) :
  (forall d value σ, deeper d σ (set env fuel d value σ)) /\
  (forall d index σ, deeper d σ (forEach env fuel d index σ)) /\
  (forall d c σ, True -> deeper d σ (call env fuel d c σ)).
Proof.
  apply run_ind; try (intros; exact I).
  - intros; constructor.
  - intros; constructor.
  - intros d value σ r Hr. constructor; [simpl; lia|exact Hr].
  - intros d callback σ r k _ H1 H2. constructor; [simpl; lia|].
    apply (deeper_seq d σ (final r)); [|exact H2].
    eapply Forall_impl; [exact H1|]. simpl. intros; lia.
  - intros d σ r Hr. constructor; [simpl; lia|exact Hr].
  - intros d σ r k. apply deeper_seq.
  - auto.
  - auto.
Qed.

Lemma slots_kept_trans (σ σ' : Store) (r : Run) d :
  (forall j e, subscribers_current σ !! j = Some e ->
     subscribers_current σ' !! j = Some e
     \/ subscribers_current σ' !! j = Some None) ->
  slots_kept d σ' r -> slots_kept d σ r.
Proof.
  intros H1 H2 j e Hj. destruct (H1 j e Hj) as [Hj'|Hj'].
  - apply H2, Hj'.
  - right. destruct (H2 j None Hj'); done.
Qed.

Lemma slots_kept_seq d σ r k :
  slots_kept d σ r -> slots_kept d (final r) (k (final r)) ->
  slots_kept d σ (and_then r k).
Proof.
  intros H1 H2. and_then_cases r k; [|exact H1].
  intros j e Hj. cbn [final]. destruct (H1 j e Hj) as [Hj'|Hj'].
  - apply H2, Hj'.
  - right. destruct (H2 j None Hj'); done.
Qed.

Lemma run_slots_kept (fuel : nat) :
  (forall d value σ, slots_kept d σ (set env fuel d value σ)) /\
  (forall d index σ, slots_kept d σ (forEach env fuel d index σ)) /\
  (forall d c σ, True -> slots_kept d σ (call env fuel d c σ)).
Proof.
  apply run_ind; try (intros; exact I).
  - intros d σ j e Hj. by left.
  - intros d σ j e Hj. by left.
  - auto.
  - intros d callback σ r k _ H1 H2. apply (slots_kept_seq d σ r k H1 H2).
  - auto.
  - apply slots_kept_seq.
  - intros d callback k σ r _. apply slots_kept_trans.
    intros j e Hj. left. simpl. by apply JsSetFacts.add_lookup_keeps.
  - intros d callback k σ r _. apply slots_kept_trans.
    intros j e Hj. rewrite unsubscribe_subscribers.
    by apply JsSetFacts.delete_lookup.
Qed.

Lemma run_keeps_wf (fuel : nat) :
  (forall d value σ, keeps_wf d σ (set env fuel d value σ)) /\
  (forall d index σ, keeps_wf d σ (forEach env fuel d index σ)) /\
  (forall d c σ, True -> keeps_wf d σ (call env fuel d c σ)).
Proof.
  apply run_ind; try (intros; exact I).
  - intros d σ Hwf. exact Hwf.
  - intros d σ Hwf. exact Hwf.
  - intros d value σ r H Hwf. apply H, Hwf.
  - intros d callback σ r k _ H1 H2 Hwf. cbn [emit final].
    and_then_cases r k; [apply H2, H1, Hwf|apply H1, Hwf].
  - intros d σ r H Hwf. apply H, Hwf.
  - intros d σ r k H1 H2 Hwf.
    and_then_cases r k; [apply H2, H1, Hwf|apply H1, Hwf].
  - intros d callback k σ r _ H Hwf. apply H. simpl.
    by apply JsSetFacts.wf_add.
  - intros d callback k σ r _ H Hwf. apply H.
    rewrite unsubscribe_subscribers. by apply JsSetFacts.wf_delete.
Qed.

End RunFacts.

Section PassFacts.

Variable env : CbId -> Cmd.

(** Commands that leave the subscriber set alone leave it unchanged. *)
Lemma run_keeps_subscribers (fuel : nat) :
  (forall callback, keeps_subscribers (env callback)) ->
  (forall d value σ,
     subscribers_current (final (set env fuel d value σ)) = subscribers_current σ) /\
  (forall d index σ,
     subscribers_current (final (forEach env fuel d index σ)) = subscribers_current σ) /\
  (forall d c σ, keeps_subscribers c ->
     subscribers_current (final (call env fuel d c σ)) = subscribers_current σ).
Proof.
  intros Henv.
  apply (run_ind env keeps_subscribers
           (fun _ σ r => subscribers_current (final r) = subscribers_current σ)).
  - exact Henv.
  - intros k s Hk. apply Hk.
  - intros value k Hk. exact Hk.
  - intros callback k [].
  - intros callback k [].
  - reflexivity.
  - reflexivity.
  - intros d value σ r Hr. exact Hr.
  - intros d callback σ r k _ H1 H2. cbn [emit final].
    and_then_cases r k; congruence.
  - intros d σ r Hr. exact Hr.
  - intros d σ r k H1 H2. and_then_cases r k; congruence.
  - intros d callback k σ r [].
  - intros d callback k σ r [].
Qed.

Lemma stays_out_seq callback d σ r k :
  stays_out callback d σ r -> stays_out callback d (final r) (k (final r)) ->
  stays_out callback d σ (and_then r k).
Proof.
  intros H1 H2 Hout. destruct (H1 Hout) as [Hout1 Hc1].
  and_then_cases r k; [|by split].
  destruct (H2 Hout1) as [Hout2 Hc2]. split; [done|].
  rewrite calls_app, elem_of_app. tauto.
Qed.

Lemma run_stays_out (callback : CbId) (fuel : nat) :
  (forall callback', never_subscribes callback (env callback')) ->
  (forall d value σ, stays_out callback d σ (set env fuel d value σ)) /\
  (forall d index σ, stays_out callback d σ (forEach env fuel d index σ)) /\
  (forall d c σ, never_subscribes callback c ->
     stays_out callback d σ (call env fuel d c σ)).
Proof.
  intros Henv.
  apply (run_ind env (never_subscribes callback) (stays_out callback)).
  - exact Henv.
  - intros k s Hk. apply Hk.
  - intros value k Hk. exact Hk.
  - intros callback' k [_ Hk]. exact Hk.
  - intros callback' k Hk. exact Hk.
  - intros d σ Hout. split; [done|]. apply not_elem_of_nil.
  - intros d σ Hout. split; [done|]. apply not_elem_of_nil.
  - intros d value σ r Hr Hout. apply Hr, Hout.
  - intros d callback' σ r k Hin H1 H2 Hout.
    destruct (stays_out_seq callback (S d) σ r k H1 H2 Hout) as [Hf Hc].
    split; [exact Hf|]. cbn [emit events calls].
    apply not_elem_of_cons. split; [|exact Hc].
    intros ->. contradiction.
  - intros d σ r Hr Hout. apply Hr, Hout.
  - apply stays_out_seq.
  - intros d callback' k σ r [Hne _] Hr Hout. apply Hr. simpl.
    rewrite JsSetFacts.elem_of_add. intros [Heq|Hin]; [by apply Hne|done].
  - intros d callback' k σ r _ Hr Hout. apply Hr.
    rewrite unsubscribe_subscribers. intros Hin.
    by apply JsSetFacts.elem_of_delete in Hin.
Qed.

(** A command that never merges returns, and with the same run whatever
    fuel is left over. *)
Lemma call_returns (c : Cmd) :
  never_sets c ->
  forall d σ, exists n r, status r = Returned /\
    forall fuel, n <= fuel -> call env fuel d c σ = r.
Proof.
  induction c as [|k IH|value k IH|callback k IH|callback k IH];
    simpl; intros Hc d σ.
  - exists 1, (ret σ). split; [done|].
    intros [|fuel] Hf; [lia|]. by rewrite call_S.
  - destruct (IH (get σ) (Hc _) d σ) as (n & r & Hr & Hrun).
    exists (S n), (emit (EvRead d (get σ)) r). split; [done|].
    intros [|fuel] Hf; [lia|]. rewrite call_S, Hrun by lia. done.
  - contradiction.
  - destruct (IH Hc d (fst (subscribe callback σ))) as (n & r & Hr & Hrun).
    exists (S n), r. split; [done|].
    intros [|fuel] Hf; [lia|]. rewrite call_S. apply Hrun. lia.
  - destruct (IH Hc d (snd (unsubscribe callback σ))) as (n & r & Hr & Hrun).
    exists (S n), r. split; [done|].
    intros [|fuel] Hf; [lia|]. rewrite call_S. apply Hrun. lia.
Qed.

Hypothesis env_keeps : forall callback, keeps_subscribers (env callback).

(** The pass from [index] on calls exactly the values of the remaining
    slots, in order. *)
Lemma forEach_calls (fuel : nat) : forall d index σ,
  status (forEach env fuel d index σ) = Returned ->
  calls_at d (events (forEach env fuel d index σ))
  = JsSet.values (drop index (subscribers_current σ)).
Proof.
  induction fuel as [|fuel IH]; intros d index σ; [discriminate|].
  rewrite forEach_S.
  destruct (subscribers_current σ !! index) as [[callback|]|] eqn:Hentry.
  - set (r := call env fuel (S d) (env callback) σ).
    set (k := forEach env fuel d (S index)).
    pose proof (proj2 (proj2 (run_deeper env fuel)) (S d) (env callback) σ I) as Hdeep.
    pose proof (proj2 (proj2 (run_keeps_subscribers fuel env_keeps))
                  (S d) (env callback) σ (env_keeps callback)) as Hsubs.
    fold r in Hdeep, Hsubs.
    cbn [emit status events]. and_then_cases r k; [|congruence].
    intros Hret. cbn [calls_at]. rewrite decide_True by done.
    rewrite calls_at_app, (calls_at_deeper d _ Hdeep). simpl.
    subst k. rewrite (IH d (S index) (final r) Hret), Hsubs.
    by rewrite (drop_S _ _ _ Hentry).
  - intros Hret. rewrite (IH d (S index) σ Hret).
    by rewrite (drop_S _ _ _ Hentry).
  - intros _. rewrite drop_ge; [done|].
    by apply lookup_ge_None.
Qed.

Hypothesis env_reads : forall callback, never_sets (env callback).

(** With callbacks that neither merge nor touch the set, the pass
    returns. *)
Lemma forEach_returns (m : nat) : forall d index σ,
  length (subscribers_current σ) - index <= m ->
  exists n r, status r = Returned /\
    forall fuel, n <= fuel -> forEach env fuel d index σ = r.
Proof.
  induction m as [|m IH]; intros d index σ Hm.
  - exists 1, (ret σ). split; [done|].
    assert (Hn : subscribers_current σ !! index = None)
      by (apply lookup_ge_None; lia).
    intros [|fuel] Hf; [lia|]. by rewrite forEach_S, Hn.
  - destruct (subscribers_current σ !! index) as [[callback|]|] eqn:Hentry.
    + destruct (call_returns (env callback) (env_reads callback) (S d) σ)
        as (n1 & r1 & Hr1 & Hrun1).
      assert (Hsubs : subscribers_current (final r1) = subscribers_current σ).
      { rewrite <- (Hrun1 n1 (le_n _)).
        apply (proj2 (proj2 (run_keeps_subscribers n1 env_keeps))), env_keeps. }
      destruct (IH d (S index) (final r1)) as (n2 & r2 & Hr2 & Hrun2).
      { rewrite Hsubs. lia. }
      exists (S (n1 + n2)),
        (emit (EvCall d callback) (and_then r1 (fun _ => r2))).
      split.
      { cbn [emit status]. rewrite (and_then_returned _ _ Hr1). exact Hr2. }
      intros [|fuel] Hf; [lia|]. rewrite forEach_S, Hentry.
      rewrite Hrun1 by lia. f_equal.
      rewrite !(and_then_returned _ _ Hr1). by rewrite Hrun2 by lia.
    + destruct (IH d (S index) σ) as (n2 & r2 & Hr2 & Hrun2); [lia|].
      exists (S n2), r2. split; [done|].
      intros [|fuel] Hf; [lia|]. rewrite forEach_S, Hentry. apply Hrun2. lia.
    + exists 1, (ret σ). split; [done|].
      intros [|fuel] Hf; [lia|]. by rewrite forEach_S, Hentry.
Qed.

Lemma set_returns d value σ :
  exists n, forall fuel, n <= fuel ->
    status (set env fuel d value σ) = Returned.
Proof.
  destruct (forEach_returns (length (subscribers_current σ)) d 0 (assign value σ))
    as (n & r & Hr & Hrun); [simpl; lia|].
  exists (S n). intros [|fuel] Hf; [lia|].
  rewrite set_S. cbn [emit status]. rewrite Hrun by lia. exact Hr.
Qed.

End PassFacts.

(** Whatever the callbacks do to the set meanwhile, a value found in a slot
    at or after [index] when the pass returns was called by the pass. *)
Lemma forEach_calls_present (env : CbId -> Cmd) (fuel : nat) :
  forall d index σ,
    status (forEach env fuel d index σ) = Returned ->
    forall j callback, index <= j ->
      subscribers_current (final (forEach env fuel d index σ)) !! j
      = Some (Some callback) ->
      callback ∈ calls_at d (events (forEach env fuel d index σ)).
Proof.
  induction fuel as [|fuel IH]; intros d index σ; [discriminate|].
  rewrite forEach_S.
  destruct (subscribers_current σ !! index) as [[callback0|]|] eqn:Hentry.
  - set (r := call env fuel (S d) (env callback0) σ).
    set (k := forEach env fuel d (S index)).
    pose proof (proj2 (proj2 (run_slots_kept env fuel)) (S d) (env callback0) σ I)
      as Hkept1.
    fold r in Hkept1.
    cbn [emit status events final]. and_then_cases r k; [|congruence].
    intros Hret j callback Hj Hslot. cbn [calls_at].
    rewrite decide_True by done. rewrite calls_at_app.
    destruct (decide (j = index)) as [->|Hne].
    + pose proof (proj1 (proj2 (run_slots_kept env fuel)) d (S index) (final r))
        as Hkept2.
      destruct (Hkept1 _ _ Hentry) as [H1|H1];
        destruct (Hkept2 _ _ H1) as [H2|H2]; subst k;
        rewrite H2 in Hslot; inversion Hslot; subst. left.
    + right. apply elem_of_app. right.
      apply (IH d (S index) (final r) Hret j callback); [lia|exact Hslot].
  - intros Hret j callback Hj Hslot.
    destruct (decide (j = index)) as [->|Hne].
    + pose proof (proj1 (proj2 (run_slots_kept env fuel)) d (S index) σ) as Hkept.
      destruct (Hkept _ _ Hentry) as [H|H]; rewrite H in Hslot; discriminate.
    + apply (IH d (S index) σ Hret j callback); [lia|exact Hslot].
  - cbn [ret status final events]. intros _ j callback Hj Hslot.
    apply lookup_ge_None in Hentry.
    assert (Hn : subscribers_current σ !! j = None) by (apply lookup_ge_None; lia).
    rewrite Hn in Hslot. discriminate.
Qed.

(** * Further facts about executions *)

Lemma replay_merged (evs : list Event) (s : StoreState) :
  replay evs s = foldl spread s (merged evs).
Proof.
  revert s. induction evs as [|[d v|d c|d s'] evs IH]; intros s; simpl; auto.
Qed.

Lemma replay_dom (evs : list Event) (s : StoreState) :
  dom (replay evs s) = dom s ∪ merged_keys evs.
Proof.
  revert s. induction evs as [|[d v|d c|d s'] evs IH]; intros s; simpl; auto.
  - by rewrite (right_id_L ∅ (∪)).
  - rewrite IH. unfold spread. rewrite dom_union_L.
    rewrite (comm_L (∪) (dom v) (dom s)). by rewrite (assoc_L (∪)).
Qed.

(** A command that never merges records no merge and no call, and leaves
    the store object alone, whatever the callbacks are. *)
Lemma quiet_call env fuel : forall d c σ,
  never_sets c ->
  merged (events (call env fuel d c σ)) = []
  /\ calls (events (call env fuel d c σ)) = []
  /\ store_current (final (call env fuel d c σ)) = store_current σ.
Proof.
  induction fuel as [|fuel IH]; intros d c σ Hc; [done|].
  rewrite call_S. destruct c as [|k|value k|callback k|callback k]; simpl in Hc.
  - done.
  - cbn [emit events final merged calls]. apply IH, Hc.
  - contradiction.
  - destruct (IH d k (fst (subscribe callback σ)) Hc) as (H1 & H2 & H3). done.
  - destruct (IH d k (snd (unsubscribe callback σ)) Hc) as (H1 & H2 & H3).
    rewrite unsubscribe_current in H3. done.
Qed.

(** With callbacks that never merge, a pass records no merge. *)
Lemma quiet_forEach env fuel :
  (forall callback, never_sets (env callback)) ->
  forall d index σ,
    merged (events (forEach env fuel d index σ)) = []
    /\ store_current (final (forEach env fuel d index σ)) = store_current σ.
Proof.
  intros Henv. induction fuel as [|fuel IH]; intros d index σ; [done|].
  rewrite forEach_S.
  destruct (subscribers_current σ !! index) as [[callback|]|]; [|apply IH|done].
  destruct (quiet_call env fuel (S d) (env callback) σ (Henv callback))
    as (Hm & _ & Hs).
  cbn [emit events final merged].
  and_then_cases (call env fuel (S d) (env callback) σ) (forEach env fuel d (S index)).
  - destruct (IH d (S index) (final (call env fuel (S d) (env callback) σ)))
      as [Hm' Hs'].
    rewrite merged_app, Hm, Hm', Hs', Hs. done.
  - done.
Qed.

Lemma and_then_status_returned (r : Run) (k : Store -> Run) :
  status (and_then r k) = Returned ->
  status r = Returned /\ status (k (final r)) = Returned.
Proof.
  unfold and_then. destruct (status r) eqn:Hr; cbn [status]; [done|].
  rewrite Hr. discriminate.
Qed.

Lemma subscribe_all_current (cs : list CbId) (σ : Store) :
  store_current (subscribe_all cs σ) = store_current σ.
Proof.
  revert σ. induction cs as [|c cs IH]; intros σ; [done|].
  unfold subscribe_all in *. simpl. by rewrite IH.
Qed.

Lemma subscribe_all_values (cs : list CbId) (σ : Store) :
  NoDup cs ->
  (forall c, c ∈ cs -> Some c ∉ subscribers_current σ) ->
  JsSet.values (subscribers_current (subscribe_all cs σ))
  = JsSet.values (subscribers_current σ) ++ cs.
Proof.
  revert σ. induction cs as [|c cs IH]; intros σ Hnd Hfresh.
  - simpl. by rewrite app_nil_r.
  - apply NoDup_cons in Hnd as [Hc Hnd].
    change (subscribe_all (c :: cs) σ)
      with (subscribe_all cs (fst (subscribe c σ))).
    rewrite IH; [|exact Hnd|].
    + simpl. rewrite JsSetFacts.add_absent by (apply Hfresh; left).
      rewrite JsSetFacts.values_app. simpl. by rewrite <- app_assoc.
    + intros c' Hc'. simpl. rewrite JsSetFacts.elem_of_add.
      intros [->|Hin]; [contradiction|].
      by apply (Hfresh c'); [right|].
Qed.

Lemma never_in_absent (x : CbId) (l : list CbId) :
  x ∉ l -> filter (fun y => y = x) l = [].
Proof.
  induction l as [|y l IH]; intros Hnin; [done|].
  apply not_elem_of_cons in Hnin as [Hne Hnin].
  rewrite filter_cons_False by congruence. by apply IH.
Qed.

Lemma once_in_NoDup (x : CbId) (l : list CbId) :
  NoDup l -> x ∈ l -> length (filter (fun y => y = x) l) = 1.
Proof.
  induction 1 as [|y l Hnin Hnd IH]; intros Hin.
  - by apply elem_of_nil in Hin.
  - apply elem_of_cons in Hin as [->|Hin].
    + rewrite filter_cons_True by done. simpl.
      by rewrite never_in_absent.
    + rewrite filter_cons_False; [by apply IH|]. intros ->. contradiction.
Qed.

Lemma set_events env fuel d value σ :
  events (set env (S fuel) d value σ)
  = EvSet d value :: events (forEach env fuel d 0 (assign value σ)).
Proof. reflexivity. Qed.

Lemma set_final_replay env fuel d value σ :
  store_current (final (set env (S fuel) d value σ))
  = replay (events (forEach env fuel d 0 (assign value σ)))
           (spread (store_current σ) value).
Proof.
  rewrite set_S. cbn [emit final].
  apply (proj1 (proj2 (run_replays env fuel))).
Qed.

(** * Facts about the pass *)

Lemma calls_at_subset (d : nat) (evs : list Event) (callback : CbId) :
  callback ∈ calls_at d evs -> callback ∈ calls evs.
Proof.
  induction evs as [|[d' v|d' c|d' s'] evs IH]; simpl; auto.
  destruct (decide (d' = d)).
  - rewrite !elem_of_cons. intros [?|?]; auto.
  - intros Hin. right. auto.
Qed.

(** With callbacks that leave the subscriber set alone, a pass that
    returns did what [notifies] describes for the values of the remaining
    slots. *)
Lemma forEach_notifies env (fuel : nat) :
  (forall callback, keeps_subscribers (env callback)) ->
  forall d index σ,
    status (forEach env fuel d index σ) = Returned ->
    notifies env d (JsSet.values (drop index (subscribers_current σ))) σ
      (events (forEach env fuel d index σ))
      (final (forEach env fuel d index σ)).
Proof.
  intros Hkeeps. induction fuel as [|fuel IH]; intros d index σ; [discriminate|].
  rewrite forEach_S.
  destruct (subscribers_current σ !! index) as [[callback|]|] eqn:Hentry.
  - pose proof (proj2 (proj2 (run_keeps_subscribers env fuel Hkeeps))
                  (S d) (env callback) σ (Hkeeps callback)) as Hsubs.
    rewrite (drop_S _ _ _ Hentry). simpl. cbn [emit status events final].
    and_then_cases (call env fuel (S d) (env callback) σ)
                   (forEach env fuel d (S index)); [|congruence].
    intros Hret. apply notifies_cons; [exact Hstatus|].
    rewrite <- Hsubs. by apply IH.
  - intros Hret. rewrite (drop_S _ _ _ Hentry). simpl. by apply IH.
  - intros _. rewrite drop_ge by (by apply lookup_ge_None). apply notifies_nil.
Qed.

(** When no callback merges, the calls a described pass records are the
    callbacks of its list and nothing else. *)
Lemma notifies_calls env d cbs σ evs σ' :
  (forall callback, never_sets (env callback)) ->
  notifies env d cbs σ evs σ' -> calls evs = cbs.
Proof.
  intros Henv. induction 1 as [|callback rest σ fuel evs σ' Hret _ IH]; [done|].
  simpl. rewrite calls_app, IH.
  destruct (quiet_call env fuel (S d) (env callback) σ (Henv callback))
    as (_ & -> & _). done.
Qed.




(** A command that calls the unsubscribe function of a callback on every
    path, and returns, leaves the callback out of the set, as long as
    nothing subscribes it. *)
Lemma call_unsubscribes env (B : CbId) :
  (forall callback, never_subscribes B (env callback)) ->
  forall fuel d c σ,
    JsSet.wf (subscribers_current σ) ->
    never_subscribes B c ->
    always_unsubscribes B c ->
    status (call env fuel d c σ) = Returned ->
    Some B ∉ subscribers_current (final (call env fuel d c σ)).
Proof.
  intros Henv. induction fuel as [|fuel IH]; intros d c σ Hwf Hns Hun;
    [discriminate|].
  rewrite call_S. destruct c as [|k|value k|callback k|callback k]; simpl in Hns, Hun.
  - contradiction.
  - cbn [emit status final]. apply IH; auto.
  - pose proof (proj1 (run_keeps_wf env fuel) d value σ Hwf) as Hwf'.
    and_then_cases (set env fuel d value σ) (call env fuel d k); [|congruence].
    apply IH; auto.
  - destruct Hns as [_ Hns]. apply IH; auto. simpl. by apply JsSetFacts.wf_add.
  - destruct Hun as [->|Hun].
    + intros _.
      apply (proj2 (proj2 (run_stays_out env B fuel Henv)) d k _ Hns).
      rewrite unsubscribe_subscribers. by apply JsSetFacts.not_elem_of_delete.
    + apply IH; auto. rewrite unsubscribe_subscribers.
      by apply JsSetFacts.wf_delete.
Qed.

(** * The merge *)

(** C1. [set(partial)] replaces [store.current] by
    [{ ...store.current, ...partial }] before anything else happens: in the
    new object every key of [partial] has [partial]'s value and every other
    key its previous value. Across any sequence of merges (any command, any
    callbacks) every key of the store object stays present, and a key that
    no merged object mentions keeps its value. *)
Theorem C1_merge_overwrites_and_keeps_keys :
  forall env fuel d (partial : StoreState) σ,
    (exists rest,
        events (set env (S fuel) d partial σ) = EvSet d partial :: rest
        /\ get (final (set env (S fuel) d partial σ))
           = replay rest (spread (get σ) partial))
    /\ get (assign partial σ) = spread (get σ) partial
    /\ subscribers_current (assign partial σ) = subscribers_current σ
    /\ (forall key v, partial !! key = Some v ->
          get (assign partial σ) !! key = Some v)
    /\ (forall key, partial !! key = None ->
          get (assign partial σ) !! key = get σ !! key)
    /\ (forall c fuel' d' key, is_Some (get σ !! key) ->
          is_Some (get (final (call env fuel' d' c σ)) !! key))
    /\ (forall c fuel' d' key,
          Forall (fun m : StoreState => m !! key = None)
                 (merged (events (call env fuel' d' c σ))) ->
          get (final (call env fuel' d' c σ)) !! key = get σ !! key).
Proof.
  intros env fuel d partial σ. unfold get. repeat split.
  - eexists. split; [apply set_events | apply set_final_replay].
  - intros key v Hv. simpl. by rewrite spread_lookup, Hv.
  - intros key Hv. simpl. by rewrite spread_lookup, Hv.
  - intros c fuel' d' key Hk.
    destruct (proj2 (proj2 (run_replays env fuel')) d' c σ I) as [-> _].
    by apply replay_keeps_keys.
  - intros c fuel' d' key Hm.
    destruct (proj2 (proj2 (run_replays env fuel')) d' c σ I) as [-> _].
    by apply replay_untouched.
Qed.

Lemma C1_witness :
  let σ := mkStore Demo.initialState [Some 0] in
  let c := SetC (single "count" (VNum 1)) (SetC (single "first" (VStr "Ada")) Done) in
  is_Some (get σ !! "last"%string)
  /\ Forall (fun m : StoreState => m !! "last"%string = None)
            (merged (events (call Demo.readers 20 0 c σ)))
  /\ is_Some (get (final (call Demo.readers 20 0 c σ)) !! "last"%string)
  /\ get (final (call Demo.readers 20 0 c σ)) !! "last"%string
     = get σ !! "last"%string.
Proof.
  intros σ c.
  assert (H1 : is_Some (get σ !! "last"%string)) by (vm_compute; eauto).
  assert (H2 : Forall (fun m : StoreState => m !! "last"%string = None)
                 (merged (events (call Demo.readers 20 0 c σ))))
    by (vm_compute; repeat constructor).
  pose proof (C1_merge_overwrites_and_keeps_keys Demo.readers 0 0 ∅ σ)
    as (_ & _ & _ & _ & _ & Hkeep & Hsame).
  split; [exact H1|]. split; [exact H2|].
  split; [apply Hkeep, H1 | apply Hsame, H2].
Defined.

(** C2, as stated, fails: a subscriber that merges [count] back during the
    notification pass makes [get().count] differ from the value just
    merged. *)
Lemma C2_counterexample :
  let σ := mkStore Demo.initialState [Some 1] in
  let r := set Demo.env 20 0 (single "count" (VNum 1)) σ in
  status r = Returned /\ get (final r) !! "count"%string <> Some (VNum 1).
Proof. vm_compute. split; [reflexivity|discriminate]. Qed.

(** C2 (amended). After [set({ [k]: v })], [get()] has [v] at [k], provided
    no subscriber merged an object mentioning [k] during the notification
    pass of that call. *)
Theorem C2_write_then_read :
  forall env fuel d (k : string) (v : Value) σ,
    Forall (fun m : StoreState => m !! k = None)
           (nested_merges (events (set env (S fuel) d (single k v) σ))) ->
    get (final (set env (S fuel) d (single k v) σ)) !! k = Some v
    /\ prop (get (final (set env (S fuel) d (single k v) σ))) k = v.
Proof.
  intros env fuel d k v σ Hm. unfold get, prop.
  rewrite set_final_replay. rewrite set_events in Hm.
  unfold nested_merges in Hm. simpl in Hm.
  rewrite replay_untouched by exact Hm.
  by rewrite spread_single_eq.
Qed.

Lemma C2_witness :
  let σ := mkStore Demo.initialState [Some 0; Some 3] in
  let r := set Demo.readers (S 19) 0 (single "first" (VStr "Ada")) σ in
  Forall (fun m : StoreState => m !! "first"%string = None)
         (nested_merges (events r))
  /\ status r = Returned
  /\ get (final r) !! "first"%string = Some (VStr "Ada").
Proof.
  intros σ r.
  assert (H : Forall (fun m : StoreState => m !! "first"%string = None)
                (nested_merges (events r))) by (vm_compute; constructor).
  split; [exact H|]. split; [reflexivity|].
  exact (proj1 (C2_write_then_read Demo.readers 19 0 "first" (VStr "Ada") σ H)).
Defined.

(** * The notification pass *)

(** C3, as stated, fails: no callback touches the subscriber set, yet
    callback 1 merges when it is notified, its merge runs a pass of its own,
    and so callbacks 1 and 0 are each called twice before the outer [set]
    returns. *)
Lemma C3_counterexample :
  let σ := mkStore Demo.initialState [Some 1; Some 0] in
  let r := set Cascades.resetting 20 0 (single "count" (VNum 1)) σ in
  (forall callback, keeps_subscribers (Cascades.resetting callback))
  /\ JsSet.wf (subscribers_current σ)
  /\ status r = Returned
  /\ calls (events r) = [1; 1; 0; 0]
  /\ length (filter (fun callback => callback = 0) (calls (events r))) = 2.
Proof.
  intros σ r. split; [|split; [|split; [|split]]].
  - intros [|[|callback]]; simpl; intros s; try case_decide; exact I.
  - apply (bool_decide_unpack _). vm_compute. exact I.
  - vm_compute. reflexivity.
  - vm_compute. reflexivity.
  - vm_compute. reflexivity.
Qed.

(** C3 (amended). When no callback touches the subscriber set, a [set]
    call that returns has run its pass as [notifies] describes: its own
    [forEach] called the callbacks that were in the set when it started, in
    order, each one once, and the body of each ran to its return before the
    next was called and before [set] returned, whatever object was merged.
    A callback that merges starts a pass of its own, which calls the
    callbacks again. When no callback merges either, [set] does return,
    and each callback is called once in all. *)
Theorem C3_each_subscriber_called_once :
  forall env d (value : StoreState) σ,
    (forall callback, keeps_subscribers (env callback)) ->
    JsSet.wf (subscribers_current σ) ->
    (forall fuel, status (set env fuel d value σ) = Returned ->
       notifies env d (JsSet.values (subscribers_current σ)) (assign value σ)
         (tail (events (set env fuel d value σ)))
         (final (set env fuel d value σ))
       /\ calls_at d (events (set env fuel d value σ))
          = JsSet.values (subscribers_current σ)
       /\ (forall callback, Some callback ∈ subscribers_current σ ->
             times_called d callback (events (set env fuel d value σ)) = 1)
       /\ subscribers_current (final (set env fuel d value σ))
          = subscribers_current σ)
    /\ ((forall callback, never_sets (env callback)) ->
        (exists n, forall fuel, n <= fuel ->
           status (set env fuel d value σ) = Returned)
        /\ (forall fuel, status (set env fuel d value σ) = Returned ->
              calls (events (set env fuel d value σ))
              = JsSet.values (subscribers_current σ)
              /\ forall callback, Some callback ∈ subscribers_current σ ->
                   length (filter (fun callback' => callback' = callback)
                             (calls (events (set env fuel d value σ)))) = 1)).
Proof.
  intros env d value σ Hkeeps Hwf.
  assert (Hpass : forall fuel, status (set env fuel d value σ) = Returned ->
            notifies env d (JsSet.values (subscribers_current σ)) (assign value σ)
              (tail (events (set env fuel d value σ)))
              (final (set env fuel d value σ))).
  { intros [|fuel] Hret; [discriminate|].
    rewrite set_S in *. cbn [emit status events final tail] in *.
    apply (forEach_notifies env fuel Hkeeps d 0 (assign value σ) Hret). }
  split.
  - intros fuel Hret. split; [by apply Hpass|].
    destruct fuel as [|fuel]; [discriminate|].
    assert (Hcalls : calls_at d (events (set env (S fuel) d value σ))
                     = JsSet.values (subscribers_current σ)).
    { rewrite set_events. cbn [calls_at].
      rewrite set_S in Hret. cbn [emit status] in Hret.
      by rewrite (forEach_calls env Hkeeps fuel d 0 (assign value σ) Hret). }
    split; [exact Hcalls|]. split.
    + intros callback Hin. unfold times_called. rewrite Hcalls.
      apply once_in_NoDup; [exact Hwf|]. by apply JsSetFacts.elem_of_values.
    + apply (proj1 (run_keeps_subscribers env (S fuel) Hkeeps)).
  - intros Hreads. split; [by apply set_returns|].
    intros fuel Hret.
    assert (Hcalls : calls (events (set env fuel d value σ))
                     = JsSet.values (subscribers_current σ)).
    { pose proof (notifies_calls env d _ _ _ _ Hreads (Hpass fuel Hret)) as Hn.
      destruct fuel as [|fuel]; [discriminate|].
      rewrite set_events in *. exact Hn. }
    split; [exact Hcalls|]. intros callback Hin. rewrite Hcalls.
    apply once_in_NoDup; [exact Hwf|]. by apply JsSetFacts.elem_of_values.
Qed.

Lemma C3_witness :
  let σ := mkStore Demo.initialState [Some 0; None; Some 3; Some 4] in
  let r := set Demo.readers 20 0 (single "count" (VNum 7)) σ in
  status r = Returned
  /\ notifies Demo.readers 0 [0; 3; 4] (assign (single "count" (VNum 7)) σ)
       (tail (events r)) (final r)
  /\ length (reads (events r)) = 3
  /\ calls_at 0 (events r) = [0; 3; 4]
  /\ times_called 0 3 (events r) = 1
  /\ calls (events r) = [0; 3; 4].
Proof.
  intros σ r.
  assert (Hkeeps : forall callback, keeps_subscribers (Demo.readers callback))
    by (intros callback s; exact I).
  assert (Hreads : forall callback, never_sets (Demo.readers callback))
    by (intros callback s; exact I).
  assert (Hwf : JsSet.wf (subscribers_current σ))
    by (apply (bool_decide_unpack _); vm_compute; exact I).
  assert (Hret : status r = Returned) by reflexivity.
  destruct (C3_each_subscriber_called_once Demo.readers 0
              (single "count" (VNum 7)) σ Hkeeps Hwf) as [Hpass Htotal].
  destruct (Hpass 20 Hret) as (Hnotifies & Hcalls & Honce & _).
  destruct (Htotal Hreads) as [_ Hall].
  split; [exact Hret|]. split; [exact Hnotifies|].
  split; [vm_compute; reflexivity|]. split; [exact Hcalls|]. split.
  - apply Honce. apply (bool_decide_unpack _). vm_compute. exact I.
  - exact (proj1 (Hall 20 Hret)).
Defined.

(** C4, as stated, fails: callback 1 merges [count] back to 0 when it is
    notified, so callback 0, notified after it in the same pass, reads an
    object equal to the one before the merge and not the merged one. *)
Lemma C4_counterexample :
  let σ := mkStore Demo.initialState [Some 1; Some 0] in
  let r := set Demo.env 20 0 (single "count" (VNum 1)) σ in
  status r = Returned
  /\ calls_at 0 (events r) = [1; 0]
  /\ last (events r) = Some (EvRead 1 Demo.initialState)
  /\ Demo.initialState <> spread (get σ) (single "count" (VNum 1)).
Proof.
  intros σ r. split; [vm_compute; reflexivity|].
  split; [vm_compute; reflexivity|]. split; [vm_compute; reflexivity|].
  intros Heq. apply (f_equal (fun m : StoreState => m !! "count"%string)) in Heq.
  vm_compute in Heq. discriminate.
Qed.

(** C4 (amended). Within one [set] call the store object is replaced before
    any callback is called, and every read made during the pass obtains the
    object current at that moment: the merged object, with the merges that
    callbacks performed earlier in the pass applied on top; hence exactly
    the merged object when no callback merged. *)
Theorem C4_readers_see_the_merged_object :
  forall env fuel d (value : StoreState) σ,
    events (set env (S fuel) d value σ)
    = EvSet d value :: events (forEach env fuel d 0 (assign value σ))
    /\ reads_current (spread (get σ) value)
         (events (forEach env fuel d 0 (assign value σ)))
    /\ (nested_merges (events (set env (S fuel) d value σ)) = [] ->
        Forall (fun s => s = spread (get σ) value)
               (reads (events (set env (S fuel) d value σ)))
        /\ get (final (set env (S fuel) d value σ)) = spread (get σ) value).
Proof.
  intros env fuel d value σ. split; [apply set_events|].
  destruct (proj1 (proj2 (run_replays env fuel)) d 0 (assign value σ))
    as [Hfinal Hreads].
  split; [exact Hreads|]. rewrite set_events. unfold nested_merges.
  cbn [merged tail reads]. intros Hm. split.
  - by apply reads_current_no_merge.
  - unfold get. rewrite set_final_replay.
    clear Hfinal Hreads. revert Hm.
    generalize (spread (store_current σ) value).
    induction (events (forEach env fuel d 0 (assign value σ)))
      as [|[d' v|d' c|d' s'] evs IH]; simpl; intros s Hm; auto.
    discriminate.
Qed.

Lemma C4_witness :
  let σ := mkStore Demo.initialState [Some 0; Some 3] in
  let r := set Demo.readers (S 19) 0 (single "count" (VNum 1)) σ in
  nested_merges (events r) = []
  /\ status r = Returned
  /\ length (reads (events r)) = 2
  /\ Forall (fun s => s = spread (get σ) (single "count" (VNum 1)))
            (reads (events r)).
Proof.
  intros σ r.
  assert (Hm : nested_merges (events r) = []) by (vm_compute; reflexivity).
  split; [exact Hm|]. split; [vm_compute; reflexivity|].
  split; [vm_compute; reflexivity|].
  exact (proj1 (proj2 (proj2 (C4_readers_see_the_merged_object Demo.readers 19 0
                                (single "count" (VNum 1)) σ)) Hm)).
Defined.

(** * Subscribing and unsubscribing *)

(** C5. [subscribe(c)] puts [c] in the set and returns a function that,
    when called, removes exactly [c]: the set then holds the other values
    it held, in the same order, and [c] no more, and the store object is
    untouched. Calling the function again finds nothing to remove and
    changes nothing. Afterwards no command calls [c], as long as nothing
    subscribes it again. *)
Theorem C5_unsubscribe_removes_exactly_its_callback :
  forall (c : CbId) σ,
    JsSet.wf (subscribers_current σ) ->
    Some c ∈ subscribers_current (fst (subscribe c σ))
    /\ JsSet.values
         (subscribers_current (snd (snd (subscribe c σ) (fst (subscribe c σ)))))
       = filter (fun c' => c' <> c)
           (JsSet.values (subscribers_current (fst (subscribe c σ))))
    /\ (forall c', c' <> c ->
          Some c' ∈ subscribers_current (fst (subscribe c σ)) ->
          Some c' ∈ subscribers_current
                      (snd (snd (subscribe c σ) (fst (subscribe c σ)))))
    /\ (Some c ∉ subscribers_current
                   (snd (snd (subscribe c σ) (fst (subscribe c σ)))))
    /\ get (snd (snd (subscribe c σ) (fst (subscribe c σ)))) = get σ
    /\ snd (subscribe c σ) (snd (snd (subscribe c σ) (fst (subscribe c σ))))
       = (false, snd (snd (subscribe c σ) (fst (subscribe c σ))))
    /\ (forall env fuel d cmd,
          (forall callback, never_subscribes c (env callback)) ->
          never_subscribes c cmd ->
          c ∉ calls (events (call env fuel d cmd
                               (snd (snd (subscribe c σ) (fst (subscribe c σ))))))).
Proof.
  intros c σ Hwf. cbn [subscribe fst snd].
  set (σ1 := mkStore (store_current σ) (JsSet.add c (subscribers_current σ))).
  assert (Hwf1 : JsSet.wf (subscribers_current σ1))
    by (apply JsSetFacts.wf_add, Hwf).
  assert (Hout : Some c ∉ subscribers_current (snd (unsubscribe c σ1))).
  { rewrite unsubscribe_subscribers. by apply JsSetFacts.not_elem_of_delete. }
  split; [|split; [|split; [|split; [|split; [|split]]]]].
  - simpl. apply JsSetFacts.elem_of_add. by left.
  - rewrite unsubscribe_subscribers. by apply JsSetFacts.values_delete.
  - intros c' Hne Hin. rewrite unsubscribe_subscribers.
    by apply JsSetFacts.elem_of_delete_ne.
  - exact Hout.
  - unfold get. by rewrite unsubscribe_current.
  - destruct (unsubscribe c σ1) as [found σ2] eqn:Hun. cbn [snd] in *.
    unfold unsubscribe. by rewrite (JsSetFacts.delete_absent _ _ Hout); destruct σ2.
  - intros env fuel d cmd Henv Hcmd.
    apply (proj2 (proj2 (run_stays_out env c fuel Henv)) d cmd _ Hcmd Hout).
Qed.

Lemma C5_witness :
  let σ := mkStore Demo.initialState [Some 0; Some 3] in
  let σ2 := snd (snd (subscribe 5 σ) (fst (subscribe 5 σ))) in
  JsSet.wf (subscribers_current σ)
  /\ JsSet.values (subscribers_current (fst (subscribe 5 σ))) = [0; 3; 5]
  /\ JsSet.values (subscribers_current σ2) = [0; 3]
  /\ 5 ∉ calls (events (call Demo.readers 20 0
                          (SetC (single "count" (VNum 1)) Done) σ2)).
Proof.
  intros σ σ2.
  assert (Hwf : JsSet.wf (subscribers_current σ))
    by (apply (bool_decide_unpack _); vm_compute; exact I).
  pose proof (C5_unsubscribe_removes_exactly_its_callback 5 σ Hwf)
    as (_ & _ & _ & _ & _ & _ & Hnever).
  split; [exact Hwf|]. split; [reflexivity|]. split; [reflexivity|].
  apply Hnever.
  - intros callback s. exact I.
  - exact I.
Defined.

Lemma pass_skips_removed env fuel d index σ (A B : CbId) :
  (forall callback, never_subscribes B (env callback)) ->
  (status (call env fuel (S d) (env A) σ) = Returned ->
   Some B ∉ subscribers_current (final (call env fuel (S d) (env A) σ))) ->
  B ∉ calls_at d (events (and_then (call env fuel (S d) (env A) σ)
                            (forEach env fuel d (S index)))).
Proof.
  intros Henv Hgone.
  pose proof (proj2 (proj2 (run_deeper env fuel)) (S d) (env A) σ I) as Hdeep.
  and_then_cases (call env fuel (S d) (env A) σ) (forEach env fuel d (S index)).
  - rewrite calls_at_app, (calls_at_deeper d _ Hdeep). simpl.
    intros Hin%calls_at_subset.
    destruct (proj1 (proj2 (run_stays_out env B fuel Henv)) d (S index)
                (final (call env fuel (S d) (env A) σ)) (Hgone eq_refl))
      as [_ Hcalls].
    contradiction.
  - rewrite (calls_at_deeper d _ Hdeep). apply not_elem_of_nil.
Qed.

(** C7. While a pass is at the slot of callback [A]: if [B] is out of the
    set when the call of [A] is over, which is so whenever the body of [A]
    calls the unsubscribe function of [B] on every path, at whatever point
    of the body, then nothing that follows in the pass calls [B], as long
    as nothing subscribes [B] again. When the unsubscription is the first
    thing [A] does, [B] is not called by the passes nested in the rest of
    the pass either. *)
Theorem C7_removed_during_pass_is_not_called :
  forall env fuel d index σ (A B : CbId),
    JsSet.wf (subscribers_current σ) ->
    subscribers_current σ !! index = Some (Some A) ->
    (forall callback, never_subscribes B (env callback)) ->
    exists rest,
      events (forEach env (S fuel) d index σ) = EvCall d A :: rest
      /\ (Some B ∉ subscribers_current (final (call env fuel (S d) (env A) σ)) ->
          B ∉ calls_at d rest)
      /\ (always_unsubscribes B (env A) -> B ∉ calls_at d rest)
      /\ (forall k, env A = Unsubscribe B k -> B ∉ calls rest).
Proof.
  intros env fuel d index σ A B Hwf Hslot Henv.
  rewrite forEach_S, Hslot. cbn [emit events].
  eexists. split; [reflexivity|]. split; [|split].
  - intros Hgone. apply pass_skips_removed; [exact Henv|]. intros _. exact Hgone.
  - intros Hun. apply pass_skips_removed; [exact Henv|].
    apply (call_unsubscribes env B Henv fuel (S d) (env A) σ Hwf (Henv A) Hun).
  - intros k HA. rewrite HA.
    destruct fuel as [|fuel].
    + cbn. apply not_elem_of_nil.
    + rewrite call_S.
      set (σ' := snd (unsubscribe B σ)).
      assert (Hout : Some B ∉ subscribers_current σ').
      { subst σ'. rewrite unsubscribe_subscribers.
        by apply JsSetFacts.not_elem_of_delete. }
      assert (Hk : never_subscribes B k).
      { pose proof (Henv A) as HnA. rewrite HA in HnA. exact HnA. }
      pose proof (proj2 (proj2 (run_stays_out env B fuel Henv)) (S d) k σ' Hk) as H1.
      pose proof (proj1 (proj2 (run_stays_out env B (S fuel) Henv)) d (S index)
                    (final (call env fuel (S d) k σ'))) as H2.
      apply (stays_out_seq env B d σ' _ (forEach env (S fuel) d (S index)) H1 H2 Hout).
Qed.

Lemma C7_witness :
  let σ := mkStore Demo.initialState [Some 2; Some 0; Some 3] in
  JsSet.wf (subscribers_current σ)
  /\ always_unsubscribes 0 (Cascades.leaving 2)
  /\ calls_at 0 (events (forEach Cascades.leaving (S 19) 0 0 σ)) = [2; 3]
  /\ exists rest,
       events (forEach Cascades.leaving (S 19) 0 0 σ) = EvCall 0 2 :: rest
       /\ 0 ∉ calls_at 0 rest.
Proof.
  intros σ.
  assert (Hwf : JsSet.wf (subscribers_current σ))
    by (apply (bool_decide_unpack _); vm_compute; exact I).
  assert (Hun : always_unsubscribes 0 (Cascades.leaving 2))
    by (intros s; left; reflexivity).
  assert (Henv : forall callback, never_subscribes 0 (Cascades.leaving callback))
    by (intros [|[|[|callback]]]; simpl; intros s; exact I).
  split; [exact Hwf|]. split; [exact Hun|]. split; [vm_compute; reflexivity|].
  destruct (C7_removed_during_pass_is_not_called Cascades.leaving 19 0 0 σ 2 0
              Hwf eq_refl Henv) as (rest & Hev & _ & Hskip & _).
  exists rest. split; [exact Hev|exact (Hskip Hun)].
Defined.

(** The pass of the scenario above: callback 2 unsubscribes callback 0, and
    the pass goes on to callback 3 without calling callback 0. *)
Example removal_during_pass :
  let σ := mkStore Demo.initialState [Some 2; Some 0; Some 3] in
  let r := set Demo.env 20 0 (single "count" (VNum 1)) σ in
  status r = Returned
  /\ calls (events r) = [2; 3]
  /\ subscribers_current (final r) = [Some 2; None; Some 3].
Proof. repeat split; vm_compute; reflexivity. Qed.

(** The scenario of the demo: [setValue] on [count], then on [first], with
    a reader bound to [first] subscribed. *)
Example demo_scenario :
  let σ := mkStore Demo.initialState [Some 0] in
  let r1 := call Demo.readers 20 0 (setter useStoreData "count" (VNum 1)) σ in
  let r2 := call Demo.readers 20 0 (setter useStoreData "first" (VStr "Ada"))
              (final r1) in
  map_to_list (get (final r1))
  = [("count", VNum 1); ("first", VStr ""); ("last", VStr "")]
  /\ calls (events r1) = [0]
  /\ getSnapshot useStoreData "first" (final r1) = VStr ""
  /\ map_to_list (get (final r2))
     = [("count", VNum 1); ("first", VStr "Ada"); ("last", VStr "")].
Proof. repeat split; vm_compute; reflexivity. Qed.

(** * The hook *)

(** C6. [useStore] throws its error exactly when the context holds no
    store: with no Provider above ([null]) it throws [Store not found],
    with a store it returns the pair and throws nothing. *)
Theorem C6_useStore_throws_iff_no_store :
  forall (ctx : option StoreHandle) (key : string) σ,
    ((exists e, useStore ctx key σ = inl e) <-> ctx = None)
    /\ (ctx = None -> useStore ctx key σ = inl (Error "Store not found"))
    /\ (forall store, ctx = Some store ->
          useStore ctx key σ
          = inr (prop (h_get store σ) key, setter store key))
    /\ useStore StoreContext_default key σ = inl (Error "Store not found")
    /\ useStore Provider_value key σ
       = inr (prop (get σ) key, fun value => SetC (single key value) Done).
Proof.
  intros ctx key σ. repeat split.
  - intros [e He]. destruct ctx; [discriminate He|reflexivity].
  - intros ->. by eexists.
  - intros ->. reflexivity.
  - intros store ->. reflexivity.
Qed.

Lemma C6_witness :
  useStore None "count" (initStore Demo.initialState)
  = inl (Error "Store not found")
  /\ useStore (Some useStoreData) "count" (initStore Demo.initialState)
     = inr (VNum 0, setter useStoreData "count").
Proof.
  pose proof (C6_useStore_throws_iff_no_store None "count"
                (initStore Demo.initialState)) as (_ & Hnone & _).
  pose proof (C6_useStore_throws_iff_no_store (Some useStoreData) "count"
                (initStore Demo.initialState)) as (_ & _ & Hsome & _).
  split; [apply Hnone; reflexivity|].
  rewrite (Hsome useStoreData eq_refl). reflexivity.
Defined.

(** * Shared facts for the remaining statements *)

Lemma set_calls_exact env fuel d value σ :
  (forall callback, keeps_subscribers (env callback)) ->
  status (set env fuel d value σ) = Returned ->
  calls_at d (events (set env fuel d value σ))
  = JsSet.values (subscribers_current σ).
Proof.
  intros Hkeeps. destruct fuel as [|fuel]; [discriminate|].
  rewrite set_S. cbn [emit status events calls_at]. intros Hret.
  by rewrite (forEach_calls env Hkeeps fuel d 0 (assign value σ) Hret).
Qed.

Lemma call_setter env fuel d (m : StoreState) σ :
  call env (S (S fuel)) d (SetC m Done) σ = set env (S fuel) d m σ.
Proof.
  rewrite call_S. set (r := set env (S fuel) d m σ).
  unfold and_then. destruct r as [[] σ' evs]; cbn [status final events].
  - rewrite call_S. cbn. by rewrite app_nil_r.
  - reflexivity.
Qed.

(** C8, as stated, fails in its last part: with a subscriber that merges
    [count] back during the pass, [readValue()] right after [setValue(1)]
    on the [count] binding is not 1. *)
Lemma C8_counterexample :
  let σ := mkStore Demo.initialState [Some 1] in
  let r := call Demo.env 20 0 (setter useStoreData "count" (VNum 1)) σ in
  status r = Returned
  /\ getSnapshot useStoreData "count" (final r) <> VNum 1.
Proof.
  intros σ r. split; [vm_compute; reflexivity|].
  intros Heq. vm_compute in Heq. discriminate.
Qed.

(** C8 (amended). For the binding [useStore] makes for a key: [setValue(v)]
    is exactly the one-field merge [set({ [key]: v })], whose assignment
    leaves every other key as it was; [readValue()] is [get()[key]] of the
    store at the time of the call; and [readValue()] right after
    [setValue(v)] is [v], provided no subscriber merged an object mentioning
    the key during the notification pass. *)
Theorem C8_binding_reads_and_writes_its_field :
  forall env fuel d (key : string) (v : Value) σ,
    useStore Provider_value key σ
    = inr (getSnapshot useStoreData key σ, setter useStoreData key)
    /\ setter useStoreData key v = SetC (single key v) Done
    /\ call env (S (S fuel)) d (setter useStoreData key v) σ
       = set env (S fuel) d (single key v) σ
    /\ (forall key', key <> key' ->
          get (assign (single key v) σ) !! key' = get σ !! key')
    /\ (forall σ', getSnapshot useStoreData key σ' = prop (get σ') key)
    /\ (Forall (fun m : StoreState => m !! key = None)
          (nested_merges
             (events (call env (S (S fuel)) d (setter useStoreData key v) σ))) ->
        getSnapshot useStoreData key
          (final (call env (S (S fuel)) d (setter useStoreData key v) σ)) = v).
Proof.
  intros env fuel d key v σ.
  split; [reflexivity|]. split; [reflexivity|].
  split; [apply call_setter|].
  split; [intros key' Hne; unfold get; simpl; by apply spread_single_ne|].
  split; [reflexivity|].
  unfold setter. cbn [useStoreData h_set]. rewrite call_setter. intros Hm.
  unfold getSnapshot, prop. cbn [useStoreData h_get]. unfold get.
  rewrite set_final_replay. rewrite set_events in Hm.
  unfold nested_merges in Hm. cbn [merged tail] in Hm.
  rewrite replay_untouched by exact Hm. by rewrite spread_single_eq.
Qed.

Lemma C8_witness :
  let σ := mkStore Demo.initialState [Some 0; Some 3] in
  let r := call Demo.readers (S (S 18)) 0
             (setter useStoreData "first" (VStr "Ada")) σ in
  Forall (fun m : StoreState => m !! "first"%string = None)
         (nested_merges (events r))
  /\ status r = Returned
  /\ getSnapshot useStoreData "first" (final r) = VStr "Ada"
  /\ getSnapshot useStoreData "count" (final r) = VNum 0.
Proof.
  intros σ r.
  assert (H : Forall (fun m : StoreState => m !! "first"%string = None)
                (nested_merges (events r))) by (vm_compute; constructor).
  split; [exact H|]. split; [vm_compute; reflexivity|].
  split; [|vm_compute; reflexivity].
  pose proof (C8_binding_reads_and_writes_its_field Demo.readers 18 0
                "first" (VStr "Ada") σ) as (_ & _ & _ & _ & _ & Hread).
  exact (Hread H).
Defined.



(** C10. Subscribing a callback that is already subscribed changes nothing:
    the set holds it once, so a pass calls it once; the functions the two
    [subscribe] calls returned do the same thing, and calling either one
    removes the callback, after which nothing calls it unless it is
    subscribed again. *)
Theorem C10_subscribe_twice_is_once :
  forall (c : CbId) σ,
    JsSet.wf (subscribers_current σ) ->
    fst (subscribe c (fst (subscribe c σ))) = fst (subscribe c σ)
    /\ length (filter (fun c' => c' = c)
                 (JsSet.values
                    (subscribers_current (fst (subscribe c (fst (subscribe c σ)))))))
       = 1
    /\ (forall env fuel d value,
          (forall callback, keeps_subscribers (env callback)) ->
          status (set env fuel d value (fst (subscribe c (fst (subscribe c σ)))))
          = Returned ->
          times_called d c
            (events (set env fuel d value (fst (subscribe c (fst (subscribe c σ))))))
          = 1)
    /\ (forall σ', snd (subscribe c σ) σ'
                   = snd (subscribe c (fst (subscribe c σ))) σ')
    /\ (forall unsub,
          unsub = snd (subscribe c σ)
          \/ unsub = snd (subscribe c (fst (subscribe c σ))) ->
          (Some c ∉ subscribers_current
                      (snd (unsub (fst (subscribe c (fst (subscribe c σ)))))))
          /\ forall env fuel d cmd,
               (forall callback, never_subscribes c (env callback)) ->
               never_subscribes c cmd ->
               c ∉ calls (events (call env fuel d cmd
                     (snd (unsub (fst (subscribe c (fst (subscribe c σ)))))))) ).
Proof.
  intros c σ Hwf. cbn [subscribe fst snd].
  set (σ1 := mkStore (store_current σ) (JsSet.add c (subscribers_current σ))).
  assert (Hwf1 : JsSet.wf (subscribers_current σ1))
    by (apply JsSetFacts.wf_add, Hwf).
  assert (Hin1 : Some c ∈ subscribers_current σ1)
    by (simpl; apply JsSetFacts.elem_of_add; by left).
  assert (Hsame : mkStore (store_current σ1) (JsSet.add c (subscribers_current σ1))
                  = σ1).
  { subst σ1. cbn [store_current subscribers_current].
    by rewrite JsSetFacts.add_idem. }
  rewrite Hsame.
  split; [reflexivity|]. split; [|split; [|split]].
  - apply once_in_NoDup; [exact Hwf1|]. by apply JsSetFacts.elem_of_values.
  - intros env fuel d value Hkeeps Hret. unfold times_called.
    rewrite (set_calls_exact env fuel d value σ1 Hkeeps Hret).
    apply once_in_NoDup; [exact Hwf1|]. by apply JsSetFacts.elem_of_values.
  - reflexivity.
  - intros unsub Hunsub.
    assert (Hu : unsub = unsubscribe c) by (destruct Hunsub; assumption).
    subst unsub.
    assert (Hout : Some c ∉ subscribers_current (snd (unsubscribe c σ1))).
    { rewrite unsubscribe_subscribers. by apply JsSetFacts.not_elem_of_delete. }
    split; [exact Hout|].
    intros env fuel d cmd Henv Hcmd.
    apply (proj2 (proj2 (run_stays_out env c fuel Henv)) d cmd _ Hcmd Hout).
Qed.

Lemma C10_witness :
  let σ := mkStore Demo.initialState [Some 0; Some 3] in
  let σ2 := fst (subscribe 5 (fst (subscribe 5 σ))) in
  JsSet.wf (subscribers_current σ)
  /\ subscribers_current σ2 = [Some 0; Some 3; Some 5]
  /\ status (set Demo.readers 20 0 (single "count" (VNum 1)) σ2) = Returned
  /\ times_called 0 5
       (events (set Demo.readers 20 0 (single "count" (VNum 1)) σ2)) = 1
  /\ (Some 5 ∉ subscribers_current (snd (snd (subscribe 5 σ) σ2))).
Proof.
  intros σ σ2.
  assert (Hwf : JsSet.wf (subscribers_current σ))
    by (apply (bool_decide_unpack _); vm_compute; exact I).
  assert (Hret : status (set Demo.readers 20 0 (single "count" (VNum 1)) σ2)
                 = Returned) by (vm_compute; reflexivity).
  pose proof (C10_subscribe_twice_is_once 5 σ Hwf)
    as (_ & _ & Honce & _ & Hunsub).
  split; [exact Hwf|]. split; [reflexivity|]. split; [exact Hret|]. split.
  - apply Honce; [intros callback s; exact I | exact Hret].
  - apply (Hunsub (snd (subscribe 5 σ))). by left.
Defined.

(** * Further properties of the store *)

(** X1. The subscriber set never holds a callback twice: if it does not
    before a command runs, it does not afterwards, whatever the command and
    the callbacks do; this holds in particular of every store reached from
    the initial one, whose set is empty. *)
Theorem X1_set_never_holds_a_callback_twice :
  forall env fuel d (c : Cmd) σ,
    JsSet.wf (subscribers_current σ) ->
    JsSet.wf (subscribers_current (final (call env fuel d c σ)))
    /\ forall initialState,
         JsSet.wf (subscribers_current
                     (final (call env fuel d c (initStore initialState)))).
Proof.
  intros env fuel d c σ Hwf. split.
  - apply (proj2 (proj2 (run_keeps_wf env fuel)) d c σ I Hwf).
  - intros initialState.
    apply (proj2 (proj2 (run_keeps_wf env fuel)) d c _ I).
    apply JsSetFacts.wf_empty.
Qed.

Lemma X1_witness :
  let c := Subscribe 4 (Subscribe 4 (SetC (single "count" (VNum 1))
             (Unsubscribe 3 (Subscribe 3 Done)))) in
  let σ := mkStore Demo.initialState [Some 2; Some 0; Some 3] in
  JsSet.wf (subscribers_current σ)
  /\ subscribers_current (final (call Demo.env 30 0 c σ))
     = [Some 2; None; None; Some 4; Some 3]
  /\ JsSet.wf (subscribers_current (final (call Demo.env 30 0 c σ))).
Proof.
  intros c σ.
  assert (Hwf : JsSet.wf (subscribers_current σ))
    by (apply (bool_decide_unpack _); vm_compute; exact I).
  split; [exact Hwf|]. split; [vm_compute; reflexivity|].
  exact (proj1 (X1_set_never_holds_a_callback_twice Demo.env 30 0 c σ Hwf)).
Defined.

(** X2. Only [set] notifies. A command that reads, subscribes and
    unsubscribes but never merges calls no callback, records no merge and
    leaves the store object as it was, whatever callbacks are subscribed. *)
Theorem X2_only_set_notifies :
  forall env fuel d (c : Cmd) σ,
    never_sets c ->
    calls (events (call env fuel d c σ)) = []
    /\ merged (events (call env fuel d c σ)) = []
    /\ get (final (call env fuel d c σ)) = get σ.
Proof.
  intros env fuel d c σ Hc.
  destruct (quiet_call env fuel d c σ Hc) as (Hm & Hcalls & Hs). done.
Qed.

Lemma X2_witness :
  let c := Subscribe 1 (Get (fun _ => Unsubscribe 0 Done)) in
  let σ := mkStore Demo.initialState [Some 0; Some 2] in
  never_sets c
  /\ status (call Demo.env 10 0 c σ) = Returned
  /\ subscribers_current (final (call Demo.env 10 0 c σ))
     = [None; Some 2; Some 1]
  /\ calls (events (call Demo.env 10 0 c σ)) = []
  /\ get (final (call Demo.env 10 0 c σ)) = get σ.
Proof.
  intros c σ.
  assert (Hc : never_sets c) by (intros s; exact I).
  pose proof (X2_only_set_notifies Demo.env 10 0 c σ Hc) as (Hcalls & _ & Hget).
  split; [exact Hc|]. split; [reflexivity|]. split; [reflexivity|].
  split; [exact Hcalls|exact Hget].
Defined.

(** X3. A callback that is in the set when [set] returns was called by the
    pass of that [set] call. This includes a callback that another callback
    subscribed during the pass: [forEach] re-reads the number of entries
    after each call and so reaches entries appended meanwhile. *)
Theorem X3_subscribed_during_pass_is_called :
  forall env fuel d (value : StoreState) σ (callback : CbId),
    status (set env fuel d value σ) = Returned ->
    Some callback ∈ subscribers_current (final (set env fuel d value σ)) ->
    callback ∈ calls_at d (events (set env fuel d value σ)).
Proof.
  intros env fuel d value σ callback Hret Hin.
  destruct fuel as [|fuel]; [discriminate|].
  rewrite set_S in *. cbn [emit status events final calls_at] in *.
  apply list_elem_of_lookup_1 in Hin as [j Hj].
  apply (forEach_calls_present env fuel d 0 _ Hret j callback); [lia|exact Hj].
Qed.

Lemma X3_witness :
  let σ := mkStore Demo.initialState [Some 0; Some 3] in
  let r := set Scenarios.late 20 0 (single "count" (VNum 1)) σ in
  status r = Returned
  /\ subscribers_current (final r) = [Some 0; Some 3; Some 7]
  /\ calls_at 0 (events r) = [0; 3; 7]
  /\ 7 ∈ calls_at 0 (events r).
Proof.
  intros σ r.
  assert (Hret : status r = Returned) by (vm_compute; reflexivity).
  split; [exact Hret|]. split; [vm_compute; reflexivity|].
  split; [vm_compute; reflexivity|].
  apply (X3_subscribed_during_pass_is_called Scenarios.late 20 0
           (single "count" (VNum 1)) σ 7 Hret).
  apply (bool_decide_unpack _). vm_compute. exact I.
Defined.

Lemma merging_callback_exhausts (env : CbId -> Cmd) (callback : CbId)
    (v : StoreState) (k : Cmd) :
  (forall callback', keeps_subscribers (env callback')) ->
  env callback = SetC v k ->
  forall n fuel, fuel <= n ->
    (forall d value σ, Some callback ∈ subscribers_current σ ->
       status (set env fuel d value σ) = OutOfFuel)
    /\ (forall d index σ j, index <= j ->
          subscribers_current σ !! j = Some (Some callback) ->
          status (forEach env fuel d index σ) = OutOfFuel).
Proof.
  intros Hkeeps Hbody. induction n as [|n IH]; intros fuel Hle.
  - assert (fuel = 0) as -> by lia. split; reflexivity.
  - destruct fuel as [|fuel]; [split; reflexivity|].
    assert (Hfuel : fuel <= n) by lia.
    destruct (IH fuel Hfuel) as [IHset IHeach]. split.
    + intros d value σ Hin. rewrite set_S. cbn [emit status].
      apply list_elem_of_lookup_1 in Hin as [j Hj].
      apply (IHeach d 0 (assign value σ) j); [lia|exact Hj].
    + intros d index σ j Hij Hj. rewrite forEach_S.
      destruct (subscribers_current σ !! index) as [[callback0|]|] eqn:Hentry.
      * cbn [emit status].
        set (r := call env fuel (S d) (env callback0) σ).
        destruct (decide (j = index)) as [->|Hne].
        -- assert (callback0 = callback) as -> by congruence.
           assert (Hr : status r = OutOfFuel).
           { subst r. rewrite Hbody. destruct fuel as [|fuel']; [reflexivity|].
             rewrite call_S.
             assert (Hs : status (set env fuel' (S d) v σ) = OutOfFuel).
             { apply (proj1 (IH fuel' ltac:(lia))).
               eapply list_elem_of_lookup_2, Hj. }
             by rewrite (and_then_out_of_fuel _ _ Hs). }
           by rewrite (and_then_out_of_fuel _ _ Hr).
        -- destruct (status r) eqn:Hr.
           ++ rewrite (and_then_returned _ _ Hr). cbn [status].
              apply (IHeach d (S index) (final r) j); [lia|].
              subst r.
              rewrite (proj2 (proj2 (run_keeps_subscribers env fuel Hkeeps))
                         (S d) (env callback0) σ (Hkeeps callback0)).
              exact Hj.
           ++ by rewrite (and_then_out_of_fuel _ _ Hr).
      * apply (IHeach d (S index) σ j); [|exact Hj].
        assert (j <> index) by congruence. lia.
      * apply lookup_ge_None in Hentry.
        assert (Hn : subscribers_current σ !! j = None)
          by (apply lookup_ge_None; lia).
        congruence.
Qed.

(** X4. A subscribed callback whose body begins with a merge makes every
    [set] call unbounded: the callback's merge notifies the callback again,
    and so on, so that no amount of fuel lets the call return (callbacks
    leaving the subscriber set alone). *)
Theorem X4_callback_that_merges_never_lets_set_return :
  forall env d (value : StoreState) σ (callback : CbId) (v : StoreState) (k : Cmd),
    (forall callback', keeps_subscribers (env callback')) ->
    Some callback ∈ subscribers_current σ ->
    env callback = SetC v k ->
    forall fuel, status (set env fuel d value σ) = OutOfFuel.
Proof.
  intros env d value σ callback v k Hkeeps Hin Hbody fuel.
  apply (proj1 (merging_callback_exhausts env callback v k Hkeeps Hbody
                  fuel fuel (le_n _)) d value σ Hin).
Qed.

Lemma X4_witness :
  let σ := mkStore Demo.initialState [Some 3; Some 0] in
  (forall callback', keeps_subscribers (Scenarios.echo callback'))
  /\ status (set Scenarios.echo 500 0 (single "first" (VStr "Ada")) σ) = OutOfFuel.
Proof.
  intros σ.
  assert (Hkeeps : forall callback', keeps_subscribers (Scenarios.echo callback'))
    by (intros [|callback']; simpl; [exact I|intros s; exact I]).
  split; [exact Hkeeps|].
  apply (X4_callback_that_merges_never_lets_set_return Scenarios.echo 0
           (single "first" (VStr "Ada")) σ 0 (single "count" (VNum 0)) Done Hkeeps).
  - apply (bool_decide_unpack _). vm_compute. exact I.
  - reflexivity.
Defined.

Lemma replay_outside_merged_keys (evs : list Event) (s : StoreState) (key : string) :
  key ∉ merged_keys evs -> replay evs s !! key = s !! key.
Proof.
  revert s. induction evs as [|[d v|d c|d s'] evs IH]; intros s Hk; simpl in *; auto.
  apply not_elem_of_union in Hk as [Hv Hk].
  rewrite IH by exact Hk. rewrite spread_lookup.
  apply not_elem_of_dom in Hv. by rewrite Hv.
Qed.

(** With callbacks that never merge, [set] leaves exactly the merged
    object behind. *)
Lemma set_final_quiet env fuel d (value : StoreState) σ :
  (forall callback, never_sets (env callback)) ->
  get (final (set env (S fuel) d value σ)) = spread (get σ) value.
Proof.
  intros Henv. unfold get. rewrite set_final_replay, replay_merged.
  by rewrite (proj1 (quiet_forEach env fuel Henv d 0 (assign value σ))).
Qed.

Lemma spread_assoc (s a b : StoreState) :
  spread (spread s a) b = spread s (spread a b).
Proof. unfold spread. apply (assoc_L (∪)). Qed.

Lemma delete_appended (value : CbId) (entries : JsSet.t) :
  Some value ∉ entries ->
  snd (JsSet.delete value (entries ++ [Some value])) = entries ++ [None].
Proof.
  induction entries as [|e rest IH]; intros Hnin; simpl.
  - by rewrite decide_True.
  - apply not_elem_of_cons in Hnin as [Hne Hnin].
    rewrite decide_False by congruence.
    specialize (IH Hnin).
    destruct (JsSet.delete value (rest ++ [Some value])) as [found rest'].
    simpl in *. by rewrite IH.
Qed.

Lemma forEach_over_empty_slots env (m : nat) : forall fuel d index σ,
  JsSet.values (subscribers_current σ) = [] ->
  length (subscribers_current σ) - index <= m ->
  m < fuel ->
  forEach env fuel d index σ = ret σ.
Proof.
  induction m as [|m IH]; intros [|fuel] d index σ Hnone Hm Hfuel; try lia.
  - rewrite forEach_S.
    assert (Hn : subscribers_current σ !! index = None)
      by (apply lookup_ge_None; lia).
    by rewrite Hn.
  - rewrite forEach_S.
    destruct (subscribers_current σ !! index) as [[callback|]|] eqn:Hentry.
    + assert (Hin : callback ∈ JsSet.values (subscribers_current σ)).
      { apply JsSetFacts.elem_of_values. eapply list_elem_of_lookup_2, Hentry. }
      rewrite Hnone in Hin. by apply elem_of_nil in Hin.
    + apply IH; [exact Hnone| |lia].
      apply lookup_lt_Some in Hentry. lia.
    + reflexivity.
Qed.

(** X5. Two merges one after the other leave the store object that one
    merge of the second object spread over the first leaves (callbacks that
    do not merge). In particular, of two merges of the same key the later
    value stays. *)
Theorem X5_consecutive_merges_compose :
  forall env fuel1 fuel2 fuel3 d (a b : StoreState) σ,
    (forall callback, never_sets (env callback)) ->
    get (final (set env (S fuel2) d b (final (set env (S fuel1) d a σ))))
    = get (final (set env (S fuel3) d (spread a b) σ))
    /\ forall key v1 v2,
         a = single key v1 -> b = single key v2 ->
         get (final (set env (S fuel2) d b (final (set env (S fuel1) d a σ))))
           !! key = Some v2.
Proof.
  intros env fuel1 fuel2 fuel3 d a b σ Henv.
  rewrite !set_final_quiet by exact Henv. split.
  - apply spread_assoc.
  - intros key v1 v2 -> ->. apply spread_single_eq.
Qed.

Lemma X5_witness :
  let σ := mkStore Demo.initialState [Some 0; Some 3] in
  let a := single "count" (VNum 1) in
  let b := single "count" (VNum 2) in
  (forall callback, never_sets (Demo.readers callback))
  /\ status (set Demo.readers (S 19) 0 b (final (set Demo.readers (S 19) 0 a σ)))
     = Returned
  /\ get (final (set Demo.readers (S 19) 0 b (final (set Demo.readers (S 19) 0 a σ))))
     = get (final (set Demo.readers (S 19) 0 (spread a b) σ))
  /\ get (final (set Demo.readers (S 19) 0 b (final (set Demo.readers (S 19) 0 a σ))))
       !! "count"%string = Some (VNum 2).
Proof.
  intros σ a b.
  assert (Henv : forall callback, never_sets (Demo.readers callback))
    by (intros callback s; exact I).
  pose proof (X5_consecutive_merges_compose Demo.readers 19 19 19 0 a b σ Henv)
    as [Hsame Hlast].
  split; [exact Henv|]. split; [vm_compute; reflexivity|].
  split; [exact Hsame|]. exact (Hlast "count"%string (VNum 1) (VNum 2) eq_refl eq_refl).
Defined.

(** X6. The setters of two bindings on different keys commute: calling one
    and then the other leaves the same store object in either order
    (callbacks that do not merge). *)
Theorem X6_setters_of_different_keys_commute :
  forall env fuel d (key1 key2 : string) (v1 v2 : Value) σ,
    (forall callback, never_sets (env callback)) ->
    key1 <> key2 ->
    get (final (call env (S (S fuel)) d (setter useStoreData key2 v2)
                  (final (call env (S (S fuel)) d (setter useStoreData key1 v1) σ))))
    = get (final (call env (S (S fuel)) d (setter useStoreData key1 v1)
                    (final (call env (S (S fuel)) d (setter useStoreData key2 v2) σ)))).
Proof.
  intros env fuel d key1 key2 v1 v2 σ Henv Hne.
  unfold setter. cbn [useStoreData h_set]. rewrite !call_setter.
  rewrite !set_final_quiet by exact Henv.
  apply map_eq. intros key. rewrite !spread_lookup. unfold single.
  destruct (decide (key = key1)) as [E1|H1];
    destruct (decide (key = key2)) as [E2|H2]; subst;
    rewrite ?lookup_singleton_eq;
    rewrite ?lookup_singleton_ne by congruence;
    rewrite ?lookup_singleton_eq; congruence.
Qed.

Lemma X6_witness :
  let σ := mkStore Demo.initialState [Some 0] in
  (forall callback, never_sets (Demo.readers callback))
  /\ "first"%string <> "count"%string
  /\ get (final (call Demo.readers (S (S 18)) 0
                   (setter useStoreData "count" (VNum 1))
                   (final (call Demo.readers (S (S 18)) 0
                             (setter useStoreData "first" (VStr "Ada")) σ))))
     = get (final (call Demo.readers (S (S 18)) 0
                     (setter useStoreData "first" (VStr "Ada"))
                     (final (call Demo.readers (S (S 18)) 0
                               (setter useStoreData "count" (VNum 1)) σ)))).
Proof.
  intros σ.
  assert (Henv : forall callback, never_sets (Demo.readers callback))
    by (intros callback s; exact I).
  assert (Hne : "first"%string <> "count"%string) by discriminate.
  split; [exact Henv|]. split; [exact Hne|].
  exact (X6_setters_of_different_keys_commute Demo.readers 18 0
           "first" "count" (VStr "Ada") (VNum 1) σ Henv Hne).
Defined.

(** X7. The keys of the store object after any command are exactly its
    keys before together with the keys of the objects merged meanwhile: no
    key is dropped, and none appears that no merge mentioned. *)
Theorem X7_keys_are_initial_keys_and_merged_keys :
  forall env fuel d (c : Cmd) σ,
    dom (get (final (call env fuel d c σ)))
    = dom (get σ) ∪ merged_keys (events (call env fuel d c σ)).
Proof.
  intros env fuel d c σ. unfold get.
  destruct (proj2 (proj2 (run_replays env fuel)) d c σ I) as [-> _].
  apply replay_dom.
Qed.

(** X8. For a key of [initialState]: until a merge mentions the key, the
    snapshot [useStore] reads from the store, [get()[key]], is the server
    snapshot [initialState[key]], the initial value: after any command run
    from the initial store whose merges do not mention the key, both are
    that value and [useStore] returns it as the state. *)
Theorem X8_snapshot_is_server_snapshot_until_key_is_merged :
  forall env fuel d (c : Cmd) (initialState : StoreState) (key : string)
         (v : Value),
    initialState !! key = Some v ->
    key ∉ merged_keys (events (call env fuel d c (initStore initialState))) ->
    getSnapshot useStoreData key (final (call env fuel d c (initStore initialState)))
    = getServerSnapshot initialState key
    /\ getServerSnapshot initialState key = v
    /\ useStore Provider_value key
         (final (call env fuel d c (initStore initialState)))
       = inr (v, setter useStoreData key).
Proof.
  intros env fuel d c initialState key v Hown Hkey.
  assert (Hserver : getServerSnapshot initialState key = v)
    by (unfold getServerSnapshot, prop; by rewrite Hown).
  assert (Hsnap : getSnapshot useStoreData key
                    (final (call env fuel d c (initStore initialState)))
                  = getServerSnapshot initialState key).
  { unfold getSnapshot, getServerSnapshot, prop. cbn [useStoreData h_get].
    unfold get.
    destruct (proj2 (proj2 (run_replays env fuel)) d c (initStore initialState) I)
      as [-> _].
    by rewrite (replay_outside_merged_keys _ _ _ Hkey). }
  split; [exact Hsnap|]. split; [exact Hserver|].
  unfold useStore, Provider_value. by rewrite Hsnap, Hserver.
Qed.

Lemma X8_witness :
  let c := Subscribe 0 (SetC (single "count" (VNum 1)) Done) in
  let r := call Demo.readers 20 0 c (initStore Demo.initialState) in
  Demo.initialState !! "first"%string = Some (VStr "")
  /\ ("first"%string ∉ merged_keys (events r))
  /\ status r = Returned
  /\ getSnapshot useStoreData "first" (final r)
     = getServerSnapshot Demo.initialState "first"
  /\ getSnapshot useStoreData "count" (final r)
     <> getServerSnapshot Demo.initialState "count".
Proof.
  intros c r.
  assert (Hown : Demo.initialState !! "first"%string = Some (VStr ""))
    by (vm_compute; reflexivity).
  assert (Hkey : "first"%string ∉ merged_keys (events r))
    by (apply (bool_decide_unpack _); vm_compute; exact I).
  split; [exact Hown|]. split; [exact Hkey|]. split; [vm_compute; reflexivity|].
  split.
  - exact (proj1 (X8_snapshot_is_server_snapshot_until_key_is_merged
                    Demo.readers 20 0 c Demo.initialState "first" (VStr "")
                    Hown Hkey)).
  - intros Heq. vm_compute in Heq. discriminate.
Defined.

Lemma delete_present (value : CbId) (entries : JsSet.t) :
  Some value ∈ entries -> fst (JsSet.delete value entries) = true.
Proof.
  induction entries as [|e rest IH]; intros Hin; simpl.
  - by apply elem_of_nil in Hin.
  - destruct (decide (e = Some value)) as [->|Hne]; [reflexivity|].
    apply elem_of_cons in Hin as [Heq|Hin]; [congruence|].
    specialize (IH Hin). by destruct (JsSet.delete value rest).
Qed.

Lemma unsubscribe_result (callback : CbId) (σ : Store) :
  fst (unsubscribe callback σ)
  = fst (JsSet.delete callback (subscribers_current σ)).
Proof.
  unfold unsubscribe. by destruct (JsSet.delete callback (subscribers_current σ)).
Qed.

(** X9. Subscribing a callback that was not subscribed and then calling
    the returned function restores the set: it holds the same callbacks in
    the same order as before, the function reports that it removed
    something, and the store object is untouched. *)
Theorem X9_subscribe_then_unsubscribe_restores_the_set :
  forall (c : CbId) σ,
    Some c ∉ subscribers_current σ ->
    JsSet.values
      (subscribers_current (snd (snd (subscribe c σ) (fst (subscribe c σ)))))
    = JsSet.values (subscribers_current σ)
    /\ fst (snd (subscribe c σ) (fst (subscribe c σ))) = true
    /\ get (snd (snd (subscribe c σ) (fst (subscribe c σ)))) = get σ.
Proof.
  intros c σ Hfresh. cbn [subscribe fst snd]. split; [|split].
  - rewrite unsubscribe_subscribers. cbn [subscribers_current].
    rewrite (JsSetFacts.add_absent _ _ Hfresh).
    rewrite (delete_appended _ _ Hfresh), JsSetFacts.values_app. simpl.
    by rewrite app_nil_r.
  - rewrite unsubscribe_result. cbn [subscribers_current].
    apply delete_present, JsSetFacts.elem_of_add. by left.
  - unfold get. by rewrite unsubscribe_current.
Qed.

Lemma X9_witness :
  let σ := mkStore Demo.initialState [Some 0; None; Some 3] in
  (Some 5 ∉ subscribers_current σ)
  /\ JsSet.values (subscribers_current (fst (subscribe 5 σ))) = [0; 3; 5]
  /\ JsSet.values
       (subscribers_current (snd (snd (subscribe 5 σ) (fst (subscribe 5 σ)))))
     = [0; 3].
Proof.
  intros σ.
  assert (Hfresh : Some 5 ∉ subscribers_current σ)
    by (apply (bool_decide_unpack _); vm_compute; exact I).
  split; [exact Hfresh|]. split; [reflexivity|].
  exact (proj1 (X9_subscribe_then_unsubscribe_restores_the_set 5 σ Hfresh)).
Defined.

(** X10. A callback that is unsubscribed and subscribed again loses its
    place: it becomes the last of the set, after every callback that
    stayed, and so is notified last. *)
Theorem X10_resubscribed_callback_goes_last :
  forall (c : CbId) σ,
    JsSet.wf (subscribers_current σ) ->
    JsSet.values
      (subscribers_current (fst (subscribe c (snd (unsubscribe c σ)))))
    = filter (fun c' => c' <> c) (JsSet.values (subscribers_current σ)) ++ [c].
Proof.
  intros c σ Hwf. cbn [subscribe fst subscribers_current].
  rewrite unsubscribe_subscribers.
  rewrite JsSetFacts.add_absent by (by apply JsSetFacts.not_elem_of_delete).
  rewrite JsSetFacts.values_app. simpl.
  by rewrite JsSetFacts.values_delete.
Qed.

Lemma X10_witness :
  let σ := mkStore Demo.initialState [Some 0; Some 3; Some 4] in
  let σ' := fst (subscribe 0 (snd (unsubscribe 0 σ))) in
  JsSet.wf (subscribers_current σ)
  /\ JsSet.values (subscribers_current σ') = [3; 4; 0]
  /\ calls_at 0 (events (set Demo.readers 20 0 ∅ σ')) = [3; 4; 0].
Proof.
  intros σ σ'.
  assert (Hwf : JsSet.wf (subscribers_current σ))
    by (apply (bool_decide_unpack _); vm_compute; exact I).
  split; [exact Hwf|]. split; [|vm_compute; reflexivity].
  exact (X10_resubscribed_callback_goes_last 0 σ Hwf).
Defined.

(** X11. With no callback in the set (no entry, or only emptied slots),
    [set] just replaces the store object: it returns, given fuel for the
    slots it steps over, with the merged object and without calling
    anything. *)
Theorem X11_set_without_subscribers_only_merges :
  forall env fuel d (value : StoreState) σ,
    JsSet.values (subscribers_current σ) = [] ->
    length (subscribers_current σ) + 2 <= fuel ->
    set env fuel d value σ = mkRun Returned (assign value σ) [EvSet d value].
Proof.
  intros env fuel d value σ Hnone Hfuel.
  destruct fuel as [|fuel]; [lia|]. rewrite set_S.
  rewrite (forEach_over_empty_slots env (length (subscribers_current σ))
             fuel d 0 (assign value σ)); [reflexivity|exact Hnone|simpl; lia|lia].
Qed.

Lemma X11_witness :
  let σ := mkStore Demo.initialState [None; None] in
  JsSet.values (subscribers_current σ) = []
  /\ set Demo.env 4 0 (single "count" (VNum 1)) σ
     = mkRun Returned (assign (single "count" (VNum 1)) σ)
             [EvSet 0 (single "count" (VNum 1))].
Proof.
  intros σ. split; [reflexivity|].
  apply (X11_set_without_subscribers_only_merges Demo.env 4 0
           (single "count" (VNum 1)) σ); [reflexivity|simpl; lia].
Defined.

(** X12. Callbacks are notified in the order in which they were
    subscribed: after distinct callbacks are subscribed one after the other
    on the initial store, a [set] call that returns calls them in that
    order, each once (callbacks leaving the subscriber set alone). *)
Theorem X12_notified_in_subscription_order :
  forall env fuel d (value initialState : StoreState) (cs : list CbId),
    (forall callback, keeps_subscribers (env callback)) ->
    NoDup cs ->
    status (set env fuel d value (subscribe_all cs (initStore initialState)))
    = Returned ->
    calls_at d
      (events (set env fuel d value (subscribe_all cs (initStore initialState))))
    = cs.
Proof.
  intros env fuel d value initialState cs Hkeeps Hnd Hret.
  rewrite (set_calls_exact env fuel d value _ Hkeeps Hret).
  rewrite subscribe_all_values; [reflexivity|exact Hnd|].
  intros c _. simpl. apply not_elem_of_nil.
Qed.

Lemma X12_witness :
  let cs := [4; 0; 3] in
  (forall callback, keeps_subscribers (Demo.readers callback))
  /\ NoDup cs
  /\ status (set Demo.readers 20 0 (single "count" (VNum 1))
               (subscribe_all cs (initStore Demo.initialState))) = Returned
  /\ calls_at 0
       (events (set Demo.readers 20 0 (single "count" (VNum 1))
                  (subscribe_all cs (initStore Demo.initialState))))
     = [4; 0; 3].
Proof.
  intros cs.
  assert (Hkeeps : forall callback, keeps_subscribers (Demo.readers callback))
    by (intros callback s; exact I).
  assert (Hnd : NoDup cs) by (apply (bool_decide_unpack _); vm_compute; exact I).
  assert (Hret : status (set Demo.readers 20 0 (single "count" (VNum 1))
                           (subscribe_all cs (initStore Demo.initialState)))
                 = Returned) by (vm_compute; reflexivity).
  split; [exact Hkeeps|]. split; [exact Hnd|]. split; [exact Hret|].
  exact (X12_notified_in_subscription_order Demo.readers 20 0
           (single "count" (VNum 1)) Demo.initialState cs Hkeeps Hnd Hret).
Defined.

(** * The demo application *)

Lemma setter_final_quiet env fuel d (key : string) (v : Value) σ :
  (forall callback, never_sets (env callback)) ->
  get (final (call env (S (S fuel)) d (setter useStoreData key v) σ))
  = spread (get σ) (single key v).
Proof.
  intros Henv. unfold setter. cbn [useStoreData h_set].
  rewrite call_setter. by apply set_final_quiet.
Qed.

(** X13. What is typed into the [TextInput] of a field is what the
    [Display] and the [TextInput] of that field show on their next render,
    and the [Display] of every other field shows what it showed before
    (callbacks that do not merge). *)
Theorem X13_TextInput_change_shows_in_Display :
  forall env fuel d (field text : string) σ (view : App.TextInputView),
    (forall callback, never_sets (env callback)) ->
    App.TextInput App.AppProvider field σ = inr view ->
    App.Display App.AppProvider field
      (final (call env (S (S fuel)) d (App.onChange view text) σ))
    = inr (VStr text)
    /\ (exists view',
          App.TextInput App.AppProvider field
            (final (call env (S (S fuel)) d (App.onChange view text) σ))
          = inr view'
          /\ App.input_value view' = VStr text)
    /\ (forall other, other <> field ->
          App.Display App.AppProvider other
            (final (call env (S (S fuel)) d (App.onChange view text) σ))
          = App.Display App.AppProvider other σ).
Proof.
  intros env fuel d field text σ view Henv Hview.
  unfold App.TextInput, App.Display, App.useAppStore, App.AppProvider,
    useStore, Provider_value in *.
  inversion Hview; subst view. cbn [App.onChange App.input_value].
  unfold getSnapshot, prop. cbn [useStoreData h_get].
  rewrite call_setter, (set_final_quiet env fuel d _ σ Henv).
  split; [|split].
  - by rewrite spread_single_eq.
  - eexists. split; [reflexivity|]. cbn [App.input_value].
    by rewrite spread_single_eq.
  - intros other Hne. by rewrite spread_single_ne by congruence.
Qed.

Lemma X13_witness :
  let σ := mkStore App.initialState [Some 0; Some 3] in
  let view := App.mkTextInputView (VStr "")
                (fun text => setter useStoreData "first" (VStr text)) in
  (forall callback, never_sets (Demo.readers callback))
  /\ App.TextInput App.AppProvider "first" σ = inr view
  /\ App.Display App.AppProvider "first"
       (final (call Demo.readers (S (S 18)) 0 (App.onChange view "Ada") σ))
     = inr (VStr "Ada")
  /\ App.Display App.AppProvider "last"
       (final (call Demo.readers (S (S 18)) 0 (App.onChange view "Ada") σ))
     = inr (VStr "").
Proof.
  intros σ view.
  assert (Henv : forall callback, never_sets (Demo.readers callback))
    by (intros callback s; exact I).
  assert (Hview : App.TextInput App.AppProvider "first" σ = inr view)
    by reflexivity.
  pose proof (X13_TextInput_change_shows_in_Display Demo.readers 18 0
                "first" "Ada" σ view Henv Hview) as (Hshow & _ & Hother).
  split; [exact Henv|]. split; [exact Hview|]. split; [exact Hshow|].
  rewrite (Hother "last"%string) by discriminate. reflexivity.
Defined.

(** X14. The button of [FormContainer] merges the count of the render it
    belongs to plus one. Clicked once, [DisplayContainer] then shows the
    count plus one; the same handler run a second time, without a render
    in between, merges the same value again, so the count is still plus
    one, while the handler of a new render brings it to plus two (count a
    number below 2^53, callbacks that do not merge). *)
Theorem X14_button_adds_one_to_the_rendered_count :
  forall env fuel d (n : Z) σ,
    (forall callback, never_sets (env callback)) ->
    prop (get σ) "count" = VNum n ->
    (- 2 ^ 53 <= n < 2 ^ 53 - 1)%Z ->
    exists click click',
      App.FormContainer App.AppProvider σ
      = inr (App.mkFormContainerView (VNum n) (Some click))
      /\ App.DisplayContainer App.AppProvider
           (final (call env (S (S fuel)) d click σ))
         = inr (VNum (n + 1))
      /\ App.DisplayContainer App.AppProvider
           (final (call env (S (S fuel)) d click
                     (final (call env (S (S fuel)) d click σ))))
         = inr (VNum (n + 1))
      /\ App.FormContainer App.AppProvider
           (final (call env (S (S fuel)) d click σ))
         = inr (App.mkFormContainerView (VNum (n + 1)) (Some click'))
      /\ App.DisplayContainer App.AppProvider
           (final (call env (S (S fuel)) d click'
                     (final (call env (S (S fuel)) d click σ))))
         = inr (VNum (n + 2)).
Proof.
  intros env fuel d n σ Henv Hcount Hn.
  exists (setter useStoreData "count" (VNum (n + 1))),
         (setter useStoreData "count" (VNum (n + 1 + 1))).
  assert (Hshow : forall σ' v,
            App.DisplayContainer App.AppProvider
              (final (call env (S (S fuel)) d (setter useStoreData "count" v) σ'))
            = inr v).
  { intros σ' v.
    unfold App.DisplayContainer, App.useAppStore, App.AppProvider, useStore,
      Provider_value, getSnapshot, prop. cbn [useStoreData h_get].
    rewrite (setter_final_quiet env fuel d "count" v σ' Henv).
    by rewrite spread_single_eq. }
  assert (Hform : forall σ' m,
            prop (get σ') "count" = VNum m ->
            (- 2 ^ 53 <= m < 2 ^ 53)%Z ->
            App.FormContainer App.AppProvider σ'
            = inr (App.mkFormContainerView (VNum m)
                     (Some (setter useStoreData "count" (VNum (m + 1)))))).
  { intros σ' m Hm Hrange.
    unfold App.FormContainer, App.useAppStore, App.AppProvider, useStore,
      Provider_value, getSnapshot. cbn [useStoreData h_get].
    rewrite Hm. unfold App.plus_one. by rewrite decide_True by exact Hrange. }
  split; [apply Hform; [exact Hcount|lia]|].
  split; [apply Hshow|]. split; [apply Hshow|].
  split.
  - apply Hform; [|lia].
    rewrite (setter_final_quiet env fuel d "count" (VNum (n + 1)) σ Henv).
    unfold prop. by rewrite spread_single_eq.
  - rewrite Hshow. do 2 f_equal. lia.
Qed.

Lemma X14_witness :
  let σ := mkStore App.initialState [Some 0] in
  (forall callback, never_sets (Demo.readers callback))
  /\ prop (get σ) "count" = VNum 0
  /\ exists click click',
       App.FormContainer App.AppProvider σ
       = inr (App.mkFormContainerView (VNum 0) (Some click))
       /\ App.DisplayContainer App.AppProvider
            (final (call Demo.readers (S (S 18)) 0 click σ))
          = inr (VNum (0 + 1))
       /\ App.DisplayContainer App.AppProvider
            (final (call Demo.readers (S (S 18)) 0 click
                      (final (call Demo.readers (S (S 18)) 0 click σ))))
          = inr (VNum (0 + 1))
       /\ App.FormContainer App.AppProvider
            (final (call Demo.readers (S (S 18)) 0 click σ))
          = inr (App.mkFormContainerView (VNum (0 + 1)) (Some click'))
       /\ App.DisplayContainer App.AppProvider
            (final (call Demo.readers (S (S 18)) 0 click'
                      (final (call Demo.readers (S (S 18)) 0 click σ))))
          = inr (VNum (0 + 2)).
Proof.
  intros σ.
  assert (Henv : forall callback, never_sets (Demo.readers callback))
    by (intros callback s; exact I).
  assert (Hcount : prop (get σ) "count" = VNum 0) by reflexivity.
  split; [exact Henv|]. split; [exact Hcount|].
  apply (X14_button_adds_one_to_the_rendered_count Demo.readers 18 0 0 σ
           Henv Hcount).
  lia.
Defined.
